(** * jenkins-webhook: the payload translation, embedded and verified

    The repository holds two variants of one program (package [main]):
    a legacy one whose inbound record is flat ([Flat] below) and one
    whose inbound record nests a [Build] object ([Nested] below).  Both
    turn a decoded Jenkins event into a decoded Discord payload.

    Go strings are byte sequences: they are [string] here, one [ascii]
    per byte, so the emoji of the labels are their UTF-8 bytes.  Go's
    [int] and [int64] are [Z], with the wrap-around written out where
    the code can overflow.  [float64] is Binary64 of [SpecFloat]. *)

From Stdlib Require Import ZArith List String Ascii Bool Lia DecimalString.
From Stdlib Require Import Floats.SpecFloat.
From Stdlib Require Import DecimalPos DecimalN.
Import ListNotations.

Local Open Scope string_scope.
Local Open Scope Z_scope.

(** Go's [==] on strings. *)
Infix "==" := String.eqb (at level 70, no associativity) : string_scope.

(** ** Package [strings], as far as the program calls it

    Separators and cut sets below are the program's literals (", ", "=",
    "{}"): non-empty and ASCII, so the library's byte-wise paths apply. *)

Module strings.

(** [s[n:]]. *)
Fixpoint skip (n : nat) (s : string) : string :=
  match n, s with
  | O, _ => s
  | S n', String _ s' => skip n' s'
  | S _, EmptyString => EmptyString
  end.

(** [s[:n]]. *)
Fixpoint take (n : nat) (s : string) : string :=
  match n, s with
  | S n', String c s' => String c (take n' s')
  | _, _ => EmptyString
  end.

Definition HasPrefix (s pre : string) : bool := String.prefix pre s.

(** [Index]: the byte index of the first instance of [substr], [None]
    for Go's [-1]. *)
Fixpoint Index (s substr : string) : option nat :=
  if HasPrefix s substr then Some O
  else match s with
       | EmptyString => None
       | String _ s' => option_map S (Index s' substr)
       end.

(** [Contains(s, substr)] is [Index(s, substr) >= 0]. *)
Definition Contains (s substr : string) : bool :=
  match Index s substr with
  | Some _ => true
  | None => false
  end.

(** The loop of [genSplit]: at most [cuts] cuts, each at the first
    instance of [sep] in what is left; the rest is the last piece. *)
Fixpoint genSplit_loop (cuts : nat) (s sep : string) : list string :=
  match cuts with
  | O => [s]
  | S k =>
      match Index s sep with
      | None => [s]
      | Some m => take m s :: genSplit_loop k (skip (m + String.length sep) s) sep
      end
  end.

(** [SplitN(s, sep, n)] for [n >= 0]: [genSplit] caps the number of
    pieces at [len(s)+1] and cuts one time less than that. *)
Definition SplitN (s sep : string) (n : nat) : list string :=
  match n with
  | O => []
  | S _ => genSplit_loop (Nat.min n (String.length s + 1) - 1) s sep
  end.

(** [Split(s, sep)]: [genSplit] with [n = Count(s, sep) + 1], which is
    at most [len(s)+1]; the loop stops by itself at the first miss. *)
Definition Split (s sep : string) : list string :=
  genSplit_loop (String.length s) s sep.

Fixpoint Join (elems : list string) (sep : string) : string :=
  match elems with
  | [] => EmptyString
  | [x] => x
  | x :: rest => x ++ sep ++ Join rest sep
  end.

Definition inCutset (cutset : string) (c : ascii) : bool :=
  existsb (Ascii.eqb c) (list_ascii_of_string cutset).

Fixpoint TrimLeft (s cutset : string) : string :=
  match s with
  | EmptyString => EmptyString
  | String c s' => if inCutset cutset c then TrimLeft s' cutset else s
  end.

Fixpoint TrimRight (s cutset : string) : string :=
  match s with
  | EmptyString => EmptyString
  | String c s' =>
      let t := TrimRight s' cutset in
      if (t == "") && inCutset cutset c then EmptyString else String c t
  end.

(** [Trim] removes every leading and every trailing byte of the cut
    set: [trimLeftASCII(trimRightASCII(s, &as), &as)]. *)
Definition Trim (s cutset : string) : string :=
  TrimLeft (TrimRight s cutset) cutset.

(** White space as [unicode.IsSpace] has it, by UTF-8 encoding: the six
    ASCII bytes, U+0085 and U+00A0, then U+1680, U+2000..U+200A, U+2028,
    U+2029, U+202F, U+205F and U+3000.  Each encoding starts with a byte
    that is no continuation byte, so decoding forwards or backwards
    finds a white-space rune exactly where these bytes stand. *)
Definition asciiSpace (c : ascii) : bool :=
  let n := nat_of_ascii c in
  ((9 <=? n) && (n <=? 13) || (n =? 32))%nat.

Definition space2 (c1 c2 : ascii) : bool :=
  let a := nat_of_ascii c1 in
  let b := nat_of_ascii c2 in
  ((a =? 194) && ((b =? 133) || (b =? 160)))%nat.

Definition space3 (c1 c2 c3 : ascii) : bool :=
  let a := nat_of_ascii c1 in
  let b := nat_of_ascii c2 in
  let c := nat_of_ascii c3 in
  ((a =? 225) && (b =? 154) && (c =? 128)
   || (a =? 226) && (b =? 128)
      && ((128 <=? c) && (c <=? 138) || (c =? 168) || (c =? 169) || (c =? 175))
   || (a =? 226) && (b =? 129) && (c =? 159)
   || (a =? 227) && (b =? 128) && (c =? 128))%nat.

(** Leading white space of a byte list; [rev3] says that the list is
    read from the end of the string, so the bytes of a rune come in
    reverse. *)
Fixpoint dropSpace (rev3 : bool) (l : list ascii) : list ascii :=
  match l with
  | [] => []
  | c1 :: r1 =>
      if asciiSpace c1 then dropSpace rev3 r1
      else match r1 with
           | [] => l
           | c2 :: r2 =>
               if (if rev3 then space2 c2 c1 else space2 c1 c2)
               then dropSpace rev3 r2
               else match r2 with
                    | [] => l
                    | c3 :: r3 =>
                        if (if rev3 then space3 c3 c2 c1 else space3 c1 c2 c3)
                        then dropSpace rev3 r3
                        else l
                    end
           end
  end.

Definition TrimSpace (s : string) : string :=
  string_of_list_ascii
    (rev (dropSpace true (rev (dropSpace false (list_ascii_of_string s))))).

End strings.

(** ** Package [fmt]: the verbs the program uses *)

Module fmt.

(** [%d] of an integer. *)
Definition FormatInt (x : Z) : string :=
  let digits := NilZero.string_of_uint (N.to_uint (Z.abs_N x)) in
  if x <? 0 then "-" ++ digits else digits.

(** [%.1f] of a [float64]: the exact binary value rounded to one
    decimal, ties to even, the sign kept even when the digits are zero;
    [tenths] is the rounded value counted in tenths. *)
Definition tenths (m : positive) (e : Z) : Z :=
  match e with
  | Zneg p =>
      let num := Zpos m * 10 in
      let den := Zpos (Pos.shiftl 1 (Npos p)) in
      let q := num / den in
      let r := num mod den in
      match 2 * r ?= den with
      | Lt => q
      | Gt => q + 1
      | Eq => if Z.even q then q else q + 1
      end
  | _ => Zpos m * 2 ^ e * 10
  end.

Definition digitChar (d : Z) : string :=
  String (ascii_of_nat (48 + Z.to_nat d)) EmptyString.

Definition Sprintf_1f (x : spec_float) : string :=
  match x with
  | S754_nan => "NaN"
  | S754_infinity false => "+Inf"
  | S754_infinity true => "-Inf"
  | S754_zero s => (if s then "-" else "") ++ "0.0"
  | S754_finite s m e =>
      let t := tenths m e in
      (if s then "-" else "") ++ FormatInt (t / 10) ++ "." ++ digitChar (t mod 10)
  end.

End fmt.

(** ** Package [time]: durations, instants and RFC 3339 *)

Module time.

Definition float64 := spec_float.

(** [float64(x)] of an integer, and the operations on [float64]. *)
Definition float64_of_int (x : Z) : float64 := binary_normalize 53 1024 x 0 false.
Definition fadd (x y : float64) : float64 := SFadd 53 1024 x y.
Definition fdiv (x y : float64) : float64 := SFdiv 53 1024 x y.
(** [x >= y]. *)
Definition fge (x y : float64) : bool := SFleb y x.

(** An [int64] result wraps around. *)
Definition wrap64 (z : Z) : Z := (z + 2 ^ 63) mod 2 ^ 64 - 2 ^ 63.

(** [Duration] is an [int64] count of nanoseconds. *)
Definition Duration := Z.
Definition Millisecond : Duration := 1000000.
Definition Second : Duration := 1000 * Millisecond.
Definition Minute : Duration := 60 * Second.
Definition Hour : Duration := 60 * Minute.

(** Go's [/] and [%] on integers truncate toward zero. *)
Definition Seconds (d : Duration) : float64 :=
  let sec := Z.quot d Second in
  let nsec := Z.rem d Second in
  fadd (float64_of_int sec) (fdiv (float64_of_int nsec) (float64_of_int 1000000000)).

Definition Minutes (d : Duration) : float64 :=
  let min := Z.quot d Minute in
  let nsec := Z.rem d Minute in
  fadd (float64_of_int min) (fdiv (float64_of_int nsec) (float64_of_int (60 * 1000000000))).

Definition Hours (d : Duration) : float64 :=
  let h := Z.quot d Hour in
  let nsec := Z.rem d Hour in
  fadd (float64_of_int h) (fdiv (float64_of_int nsec) (float64_of_int (60 * 60 * 1000000000))).

(** An instant: seconds since the Unix epoch and nanoseconds within
    the second. *)
Record Time := { unixSec : Z; nanos : Z }.

Definition Unix (sec nsec : Z) : Time :=
  if (nsec <? 0) || (1000000000 <=? nsec) then
    let n := Z.quot nsec 1000000000 in
    let sec := sec + n in
    let nsec := nsec - n * 1000000000 in
    if nsec <? 0 then {| unixSec := sec - 1; nanos := nsec + 1000000000 |}
    else {| unixSec := sec; nanos := nsec |}
  else {| unixSec := sec; nanos := nsec |}.

(** A [Location] gives the offset, in seconds east of UTC, in force at
    a Unix instant. *)
Definition Location := Z -> Z.
Definition UTC : Location := fun _ => 0.

(** Day number (days since 1970-01-01) to year, month, day of the
    proleptic Gregorian calendar. *)
Definition civil (days : Z) : Z * Z * Z :=
  let z := days + 719468 in
  let era := z / 146097 in
  let doe := z - era * 146097 in
  let yoe := (doe - doe / 1460 + doe / 36524 - doe / 146096) / 365 in
  let doy := doe - (365 * yoe + yoe / 4 - yoe / 100) in
  let mp := (5 * doy + 2) / 153 in
  let d := doy - (153 * mp + 2) / 5 + 1 in
  let m := if mp <? 10 then mp + 3 else mp - 9 in
  let y := yoe + era * 400 + (if m <=? 2 then 1 else 0) in
  (y, m, d).

Fixpoint zeros (n : nat) : string :=
  match n with
  | O => EmptyString
  | S k => String "0" (zeros k)
  end.

(** [appendInt]: the decimal form, zero-padded to [width] digits, a
    minus sign first for a negative value. *)
Definition appendInt (x : Z) (width : nat) : string :=
  let digits := NilZero.string_of_uint (N.to_uint (Z.abs_N x)) in
  (if x <? 0 then "-" else "")
  ++ zeros (width - String.length digits) ++ digits.

(** [t.Format(time.RFC3339)] for an instant of location [loc]. *)
Definition FormatRFC3339 (loc : Location) (t : Time) : string :=
  let offset := loc (unixSec t) in
  let abs := unixSec t + offset in
  let '(year, month, day) := civil (abs / 86400) in
  let secs := abs mod 86400 in
  let zone := Z.quot offset 60 in
  appendInt year 4 ++ "-" ++ appendInt month 2 ++ "-" ++ appendInt day 2
  ++ "T" ++ appendInt (secs / 3600) 2
  ++ ":" ++ appendInt (secs mod 3600 / 60) 2
  ++ ":" ++ appendInt (secs mod 60) 2
  ++ (if offset =? 0 then "Z"
      else (if zone <? 0 then "-" else "+")
           ++ appendInt (Z.abs zone / 60) 2
           ++ ":" ++ appendInt (Z.abs zone mod 60) 2).

End time.

(** ** What a conversion reads from the process

    The program reads two things that are no part of the event: the
    wall clock ([time.Now()]) and the local time zone ([time.Local],
    which [time.Now] and [time.Unix] attach to their result).  A
    computation is a reader of both; nothing is written. *)

Record World := {
  clock : time.Time;
  Local : time.Location
}.

Definition IO (A : Type) : Type := World -> A.

Definition ret {A : Type} (a : A) : IO A := fun _ => a.

Definition bind {A B : Type} (m : IO A) (k : A -> IO B) : IO B :=
  fun w => k (m w) w.

Notation "x <- m ;; k" := (bind m (fun x => k))
  (at level 61, m at next level, right associativity).

(** [time.Now()]. *)
Definition Now : IO time.Time := fun w => clock w.

(** [t.Format(time.RFC3339)] of an instant in the local zone. *)
Definition Format_RFC3339 (t : time.Time) : IO string :=
  fun w => time.FormatRFC3339 (Local w) t.

(** ** The outbound records (identical in both variants) *)

Module Discord.

Record DiscordEmbedField := {
  Name : string;
  Value : string;
  Inline : bool
}.

Record DiscordEmbedFooter := {
  Text : string
}.

Record DiscordEmbed := {
  Title : string;
  Description : string;
  URL : string;
  Color : Z;
  Fields : list DiscordEmbedField;
  Timestamp : string;
  Footer : option DiscordEmbedFooter
}.

Record DiscordWebhook := {
  Content : string;
  Embeds : list DiscordEmbed
}.

End Discord.
Import Discord.

(** ** The flat (legacy) variant *)

Module Flat.

Record JenkinsWebhook := {
  BuildName : string;
  BuildUrl : string;
  BuildVars : string;
  Event : string;
  ProjectName : string
}.

Definition getEventColor (event : string) : Z :=
  if event == "success" then 0x00FF00
  else if (event == "failure") || (event == "failed") then 0xFF0000
  else if event == "unstable" then 0xFFA500
  else if event == "aborted" then 0x808080
  else if event == "started" then 0x0099FF
  else 0x808080.

Definition getEventText (event : string) : string :=
  if event == "success" then "✅ Success"
  else if (event == "failure") || (event == "failed") then "❌ Failure"
  else if event == "unstable" then "⚠️ Unstable"
  else if event == "aborted" then "🛑 Aborted"
  else if event == "started" then "🔄 Started"
  else event.

Definition LF : string := String (ascii_of_nat 10) EmptyString.

(** The body of [for _, v := range vars], [formatted] being the slice
    the loop appends to. *)
Fixpoint formatBuildVars_loop (vars formatted : list string) : list string :=
  match vars with
  | [] => formatted
  | v :: vars' =>
      let parts := strings.SplitN v "=" 2 in
      let formatted :=
        if (List.length parts =? 2)%nat
        then app formatted ["**" ++ strings.TrimSpace (nth 0 parts "")
                            ++ "**: " ++ strings.TrimSpace (nth 1 parts "")]
        else formatted in
      formatBuildVars_loop vars' formatted
  end.

Definition formatBuildVars (buildVars : string) : string :=
  if buildVars == "" then ""
  else
    let cleanVars := strings.Trim buildVars "{}" in
    if cleanVars == "" then ""
    else
      let vars := strings.Split cleanVars ", " in
      strings.Join (formatBuildVars_loop vars []) LF.

Definition convertToDiscordPayload (jenkins : JenkinsWebhook) : IO DiscordWebhook :=
  let color := getEventColor (Event jenkins) in
  now <- Now ;;
  timestamp <- Format_RFC3339 now ;;
  let buildVarsFormatted := formatBuildVars (BuildVars jenkins) in
  let fields :=
    [ {| Name := "Build"; Value := BuildName jenkins; Inline := true |};
      {| Name := "Status"; Value := getEventText (Event jenkins); Inline := true |};
      {| Name := "Project"; Value := ProjectName jenkins; Inline := true |} ] in
  let fields :=
    if negb (buildVarsFormatted == "")
    then app fields [ {| Name := "Build Variables"; Value := buildVarsFormatted;
                         Inline := false |} ]
    else fields in
  let embed :=
    {| Title := ProjectName jenkins ++ " - " ++ BuildName jenkins;
       Description := "Build " ++ Event jenkins;
       URL := BuildUrl jenkins;
       Color := color;
       Fields := fields;
       Timestamp := timestamp;
       Footer := Some {| Text := "Jenkins CI/CD" |} |} in
  ret {| Content := ""; Embeds := [embed] |}.

End Flat.

(** ** The nested variant *)

Module Nested.

(** A decoded JSON value, for the fields typed [any]: they are carried
    and never inspected. *)
#[warnings="-register-all"]
Inductive any :=
| JNull
| JBool (b : bool)
| JNumber (digits : string)
| JString (s : string)
| JArray (items : list any)
| JObject (members : list (string * any)).

Module Build.
Record t := {
  FullDisplayName : string;
  Number : Z;
  QueueID : Z;
  Timestamp : Z;
  StartTimeMillis : Z;
  Result : string;
  Duration : Z;
  URL : string;
  Builtby : list any;
  Actions : list any;
  Parameters : list (string * any);
  Cause : string;
  ChangeSets : list any;
  Culprits : list any;
  NextBuild : any;
  PreviousBuild : any;
  Phase : string;
  Status : string
}.
End Build.

Record JenkinsWebhook := {
  Name : string;
  URL : string;
  Build : Build.t;
  DisplayName : string
}.

(** [getStatusColor]: the first [switch] has no [default], so a result
    outside its four cases goes on to the [switch] on the status. *)
Definition getStatusColor (result status : string) : Z :=
  if result == "SUCCESS" then 0x00FF00
  else if result == "FAILURE" then 0xFF0000
  else if result == "UNSTABLE" then 0xFFA500
  else if result == "ABORTED" then 0x808080
  else
    if status == "STARTED" then 0x0099FF
    else if status == "COMPLETED" then 0x00FF00
    else 0x808080.

Definition getStatusText (result status : string) : string :=
  if negb (result == "") then
    if result == "SUCCESS" then "✅ Success"
    else if result == "FAILURE" then "❌ Failure"
    else if result == "UNSTABLE" then "⚠️ Unstable"
    else if result == "ABORTED" then "🛑 Aborted"
    else result
  else
    if status == "STARTED" then "🔄 Started"
    else if status == "COMPLETED" then "✅ Completed"
    else status.

(** The spec's [Classify(result, status)]: the colour and the label
    that the two functions above give to one build. *)
Definition Classify (result status : string) : Z * string :=
  (getStatusColor result status, getStatusText result status).

(** [d := time.Duration(duration) * time.Millisecond] is an [int64]
    product. *)
Definition formatDuration (duration : Z) : string :=
  if duration =? 0 then "N/A"
  else
    let d := time.wrap64 (duration * time.Millisecond) in
    if time.fge (time.Hours d) (time.float64_of_int 1)
    then fmt.Sprintf_1f (time.Hours d) ++ "h"
    else if time.fge (time.Minutes d) (time.float64_of_int 1)
    then fmt.Sprintf_1f (time.Minutes d) ++ "m"
    else fmt.Sprintf_1f (time.Seconds d) ++ "s".

Definition convertToDiscordPayload (jenkins : JenkinsWebhook) : IO DiscordWebhook :=
  let color := getStatusColor (Build.Result (Build jenkins)) (Build.Status (Build jenkins)) in
  timestamp <- Format_RFC3339 (time.Unix (Z.quot (Build.Timestamp (Build jenkins)) 1000) 0) ;;
  let duration := formatDuration (Build.Duration (Build jenkins)) in
  let fields :=
    [ {| Discord.Name := "Build Number";
         Value := "#" ++ fmt.FormatInt (Build.Number (Build jenkins));
         Inline := true |};
      {| Discord.Name := "Status";
         Value := getStatusText (Build.Result (Build jenkins)) (Build.Status (Build jenkins));
         Inline := true |};
      {| Discord.Name := "Duration"; Value := duration; Inline := true |};
      {| Discord.Name := "Phase"; Value := Build.Phase (Build jenkins); Inline := true |} ] in
  let fields :=
    if negb (Build.Cause (Build jenkins) == "")
    then app fields [ {| Discord.Name := "Cause"; Value := Build.Cause (Build jenkins);
                         Inline := false |} ]
    else fields in
  let embed :=
    {| Title := DisplayName jenkins ++ " - Build #" ++ fmt.FormatInt (Build.Number (Build jenkins));
       Description := Build.FullDisplayName (Build jenkins);
       Discord.URL := Build.URL (Build jenkins);
       Color := color;
       Fields := fields;
       Discord.Timestamp := timestamp;
       Footer := Some {| Text := "Jenkins CI/CD" |} |} in
  ret {| Content := ""; Embeds := [embed] |}.

End Nested.

(** The payload of the README, used where a concrete event is needed. *)
Definition sampleBuild : Nested.Build.t :=
  {| Nested.Build.FullDisplayName := "My Project #42";
     Nested.Build.Number := 42;
     Nested.Build.QueueID := 123;
     Nested.Build.Timestamp := 1642584000000;
     Nested.Build.StartTimeMillis := 1642584000000;
     Nested.Build.Result := "SUCCESS";
     Nested.Build.Duration := 125000;
     Nested.Build.URL := "http://jenkins.example.com/job/my-project/42/";
     Nested.Build.Builtby := [];
     Nested.Build.Actions := [];
     Nested.Build.Parameters := [];
     Nested.Build.Cause := "Started by user admin";
     Nested.Build.ChangeSets := [];
     Nested.Build.Culprits := [];
     Nested.Build.NextBuild := Nested.JNull;
     Nested.Build.PreviousBuild := Nested.JNull;
     Nested.Build.Phase := "COMPLETED";
     Nested.Build.Status := "SUCCESS" |}.

Definition samplePayload : Nested.JenkinsWebhook :=
  {| Nested.Name := "my-project";
     Nested.URL := "http://jenkins.example.com/job/my-project/";
     Nested.Build := sampleBuild;
     Nested.DisplayName := "My Project" |}.

(** The sample payload with another build timestamp. *)
Definition stampedAt (ts : Z) : Nested.JenkinsWebhook :=
  {| Nested.Name := "my-project";
     Nested.URL := "http://jenkins.example.com/job/my-project/";
     Nested.Build :=
       {| Nested.Build.FullDisplayName := "My Project #42";
          Nested.Build.Number := 42;
          Nested.Build.QueueID := 123;
          Nested.Build.Timestamp := ts;
          Nested.Build.StartTimeMillis := ts;
          Nested.Build.Result := "SUCCESS";
          Nested.Build.Duration := 125000;
          Nested.Build.URL := "http://jenkins.example.com/job/my-project/42/";
          Nested.Build.Builtby := [];
          Nested.Build.Actions := [];
          Nested.Build.Parameters := [];
          Nested.Build.Cause := "Started by user admin";
          Nested.Build.ChangeSets := [];
          Nested.Build.Culprits := [];
          Nested.Build.NextBuild := Nested.JNull;
          Nested.Build.PreviousBuild := Nested.JNull;
          Nested.Build.Phase := "COMPLETED";
          Nested.Build.Status := "SUCCESS" |};
     Nested.DisplayName := "My Project" |}.

(** A process at the Unix epoch whose local zone is UTC. *)
Definition epochUTC : World :=
  {| clock := {| time.unixSec := 0; time.nanos := 0 |}; Local := time.UTC |}.

(** The same process one second later. *)
Definition epochUTC_later : World :=
  {| clock := {| time.unixSec := 1; time.nanos := 0 |}; Local := time.UTC |}.

Definition sampleFlat : Flat.JenkinsWebhook :=
  {| Flat.BuildName := "build-42";
     Flat.BuildUrl := "http://jenkins.example.com/job/my-project/42/";
     Flat.BuildVars := "{a=1, b=2}";
     Flat.Event := "success";
     Flat.ProjectName := "my-project" |}.

(** The timestamps of the cards of a payload, in order. *)
Definition cardTimestamps (d : DiscordWebhook) : list string :=
  map Timestamp (Embeds d).

(** A payload with the timestamp of every card blanked. *)
Definition withoutTimestamps (d : DiscordWebhook) : DiscordWebhook :=
  {| Content := Content d;
     Embeds :=
       map (fun e => {| Title := Title e; Description := Description e;
                        URL := URL e; Color := Color e; Fields := Fields e;
                        Timestamp := ""; Footer := Footer e |})
           (Embeds d) |}.

(** Two instants in epoch milliseconds lie in the same whole second
    when one second [[1000 k, 1000 (k + 1))] of the time line holds
    both ([/] on [Z] rounds down). *)
Definition same_whole_second (t1 t2 : Z) : Prop := t1 / 1000 = t2 / 1000.

(** ** The build-variables format, as the spec words it *)


Fixpoint lastByte (s : string) : option ascii :=
  match s with
  | EmptyString => None
  | String c s' =>
      match s' with
      | EmptyString => Some c
      | String _ _ => lastByte s'
      end
  end.

Definition isBrace (c : ascii) : bool := strings.inCutset "{}" c.

Fixpoint bracesOnly (s : string) : bool :=
  match s with
  | EmptyString => true
  | String c s' => isBrace c && bracesOnly s'
  end.



(** An entry cut at its first [c]: what stands before and after. *)
Fixpoint cutFirst (c : ascii) (s : string) : option (string * string) :=
  match s with
  | EmptyString => None
  | String a s' =>
      if Ascii.eqb a c then Some (EmptyString, s')
      else match cutFirst c s' with
           | Some (k, v) => Some (String a k, v)
           | None => None
           end
  end.

(** An entry with no "=" renders to nothing, any other to one line. *)
Definition renderEntry (entry : string) : list string :=
  match cutFirst "="%char entry with
  | None => []
  | Some (k, v) => ["**" ++ strings.TrimSpace k ++ "**: " ++ strings.TrimSpace v]
  end.

(** The spec's steps after brace stripping. *)
Definition renderEntries (clean : string) : string :=
  strings.Join (flat_map renderEntry (strings.Split clean ", ")) Flat.LF.


(** ** Floats: the shapes the duration proofs speak of *)

(** A float of value at least 1: positive, the mantissa within 53 bits
    and at least [2 ^ (- e)]; or plus infinity. *)
Definition geOne (x : spec_float) : Prop :=
  match x with
  | S754_finite false m e => Zpos m < 2 ^ 53 /\ 2 ^ (- e) <= Zpos m
  | S754_infinity false => True
  | _ => False
  end.

(** A float of value below 1 and not negative: a zero, or positive
    with an exponent under that of 1. *)
Definition ltOne (x : spec_float) : Prop :=
  match x with
  | S754_zero _ => True
  | S754_finite false _ e => e <= -53
  | _ => False
  end.

Definition notPositive (x : spec_float) : Prop :=
  match x with
  | S754_zero _ | S754_finite true _ _ | S754_infinity true => True
  | _ => False
  end.

(** A float that is zero or finite, of magnitude below [2 ^ A]. *)
Definition fits (A : Z) (x : spec_float) : Prop :=
  match x with
  | S754_zero _ => True
  | S754_finite _ m e => Zdigits2 (Zpos m) + e <= A
  | _ => False
  end.

(** A rendering with one decimal place: an optional minus sign, the
    integer part, a point and one digit. *)
Definition oneDecimal (s : string) : Prop :=
  exists (sign : string) (ip d : Z),
    (sign = "" \/ sign = "-") /\ 0 <= ip /\ 0 <= d <= 9
    /\ s = sign ++ fmt.FormatInt ip ++ "." ++ fmt.digitChar d.

(** The value of a duration in a unit of [U] nanoseconds, the way
    [Hours], [Minutes] and [Seconds] compute it. *)
Definition inUnit (U d : Z) : spec_float :=
  time.fadd (time.float64_of_int (Z.quot d U))
            (time.fdiv (time.float64_of_int (Z.rem d U)) (time.float64_of_int U)).

(** The largest count of milliseconds whose count of nanoseconds is an
    [int64]; the smallest is its opposite. *)
Definition maxMillis : Z := 9223372036854.

(** ** Package [strconv]: [Atoi] *)

Module strconv.

Definition isDigit (c : ascii) : bool :=
  let n := nat_of_ascii c in ((48 <=? n) && (n <=? 57))%nat.

Definition digitVal (c : ascii) : Z := Z.of_nat (nat_of_ascii c) - 48.

(** The digit loop: [n = n*10 + int(ch)], a byte that is no digit is a
    syntax error. *)
Fixpoint digits (s : string) (n : Z) : option Z :=
  match s with
  | EmptyString => Some n
  | String ch s' => if isDigit ch then digits s' (n * 10 + digitVal ch) else None
  end.

(** [Atoi]: an optional sign, then at least one digit, base 10 (no
    underscores); a value outside [int] (64 bits) is a range error.
    [None] stands for either error.  The fast path for short strings
    and [ParseInt(s, 10, 0)] agree where both apply. *)
Definition Atoi (s : string) : option Z :=
  let '(neg, rest) :=
    match s with
    | String c r =>
        if Ascii.eqb c "-" then (true, r)
        else if Ascii.eqb c "+" then (false, r)
        else (false, s)
    | EmptyString => (false, s)
    end in
  match rest with
  | EmptyString => None
  | String _ _ =>
      match digits rest 0 with
      | None => None
      | Some n =>
          let z := if neg then - n else n in
          if (-9223372036854775808 <=? z) && (z <=? 9223372036854775807)
          then Some z else None
      end
  end.

End strconv.

(** ** Package [encoding/json]: the value a record marshals to

    [json.Marshal] is taken up to the tree of the document: which keys
    an object has, in which order, with which values.  The text of the
    document (escaping, invalid UTF-8 made U+FFFD) is the encoder's. *)

Module json.

#[warnings="-register-all"]
Inductive Value :=
| Null
| Bool (b : bool)
| Number (n : Z)
| Str (s : string)
| Array (items : list Value)
| Object (members : list (string * Value)).

Definition keys (v : Value) : list string :=
  match v with
  | Object members => map fst members
  | _ => []
  end.

Fixpoint lookup (k : string) (members : list (string * Value)) : option Value :=
  match members with
  | [] => None
  | (k', v) :: rest => if k' == k then Some v else lookup k rest
  end.

Definition get (k : string) (v : Value) : option Value :=
  match v with
  | Object members => lookup k members
  | _ => None
  end.

(** A string field tagged [omitempty]. *)
Definition omitempty (k s : string) : list (string * Value) :=
  if s == "" then [] else [(k, Str s)].

End json.

(** The struct tags of the outbound records: [Name] and [Value] are
    always written, every other field is [omitempty]. *)
Definition marshalField (f : DiscordEmbedField) : json.Value :=
  json.Object
    ([("name", json.Str (Name f)); ("value", json.Str (Value f))]
     ++ (if Inline f then [("inline", json.Bool true)] else []))%list.

Definition marshalFooter (f : DiscordEmbedFooter) : json.Value :=
  json.Object [("text", json.Str (Text f))].

Definition marshalEmbed (e : DiscordEmbed) : json.Value :=
  json.Object
    (json.omitempty "title" (Title e)
     ++ json.omitempty "description" (Description e)
     ++ json.omitempty "url" (URL e)
     ++ (if Color e =? 0 then [] else [("color", json.Number (Color e))])
     ++ match Fields e with
        | [] => []
        | fs => [("fields", json.Array (map marshalField fs))]
        end
     ++ json.omitempty "timestamp" (Timestamp e)
     ++ match Footer e with
        | None => []
        | Some f => [("footer", marshalFooter f)]
        end)%list.

(** [json.Marshal(payload)] of a [DiscordWebhook]; it has no error on
    this type. *)
Definition Marshal (d : DiscordWebhook) : json.Value :=
  json.Object
    (json.omitempty "content" (Content d)
     ++ match Embeds d with
        | [] => []
        | es => [("embeds", json.Array (map marshalEmbed es))]
        end)%list.

(** ** Package [net/http] and what lies outside the process *)

Module http.

Record Request := {
  Method : string;
  URL : string;
  Header : list (string * string);
  Body : json.Value
}.

(** What [client.Do] ends with: an error, or a response of some
    status. *)
Inductive RoundTrip :=
| Failed (err : string)
| Answered (StatusCode : Z).

Definition StatusOK : Z := 200.
Definition StatusBadRequest : Z := 400.
Definition StatusInternalServerError : Z := 500.

End http.

(** The outside of a handler: whether [http.NewRequest] takes the
    destination URL ([Some] is its error) and how the destination
    answers a request. *)
Record Outside := {
  urlError : string -> option string;
  roundTrip : http.Request -> http.RoundTrip
}.

(** What a handler does besides replying, in order: a line to the log,
    a call of [client.Do], the closing of a response body. *)
Inductive Event :=
| Logged (line : string)
| Do (req : http.Request)
| Closed.

(** What [c.JSON(code, body)] replies. *)
Record Reply := {
  Code : Z;
  Payload : json.Value
}.

(** ** The handler, shared by both variants *)

Record Client := {
  Timeout : time.Duration
}.

Record WebhookHandler := {
  client : Client;
  discordURL : string;
  jenkinsURL : string
}.

Definition NewWebhookHandler (discordURL jenkinsURL : string) : WebhookHandler :=
  let timeout := 30 * time.Second in
  let client := {| Timeout := timeout |} in
  {| client := client; discordURL := discordURL; jenkinsURL := jenkinsURL |}.

(** [sendToDiscord]: the events, and the error if any.  The deferred
    [resp.Body.Close()] runs last. *)
Definition sendToDiscord (o : Outside) (w : WebhookHandler) (payload : DiscordWebhook)
  : list Event * option string :=
  let jsonData := Marshal payload in
  match urlError o (discordURL w) with
  | Some err => ([], Some ("error creating request: " ++ err))
  | None =>
      let req :=
        {| http.Method := "POST";
           http.URL := discordURL w;
           http.Header := [("Content-Type", "application/json")];
           http.Body := jsonData |} in
      match roundTrip o req with
      | http.Failed err => ([Do req], Some ("error sending request: " ++ err))
      | http.Answered StatusCode =>
          if (StatusCode <? 200) || (300 <=? StatusCode)
          then ([Do req; Closed],
                Some ("discord API returned status: " ++ fmt.FormatInt StatusCode))
          else ([Do req; Logged "Successfully sent webhook to Discord"; Closed], None)
      end
  end.

(** [HandlePrintRequestBody]; [body] is what [io.ReadAll] gave, [inl]
    its error.  A map is marshalled with its keys sorted. *)
Definition HandlePrintRequestBody (body : string + string) : list Event * Reply :=
  match body with
  | inl err =>
      ([Logged ("Error reading request body: " ++ err)],
       {| Code := http.StatusBadRequest;
          Payload := json.Object [("error", json.Str "Failed to read request body")] |})
  | inr bodyContent =>
      ([Logged ("Request Body Content:" ++ Flat.LF ++ bodyContent)],
       {| Code := http.StatusOK;
          Payload :=
            json.Object
              [("body_content", json.Str bodyContent);
               ("content_length", json.Number (Z.of_nat (String.length bodyContent)));
               ("status", json.Str "success")] |})
  end.

(** The handler of [GET /health]. *)
Definition health : Reply :=
  {| Code := http.StatusOK; Payload := json.Object [("status", json.Str "healthy")] |}.

Definition invalidPayload : Reply :=
  {| Code := http.StatusBadRequest;
     Payload := json.Object [("error", json.Str "Invalid payload")] |}.

Definition failedToSend : Reply :=
  {| Code := http.StatusInternalServerError;
     Payload := json.Object [("error", json.Str "Failed to send to Discord")] |}.

Definition success : Reply :=
  {| Code := http.StatusOK; Payload := json.Object [("status", json.Str "success")] |}.

(** [HandleJenkinsWebhook] of the flat variant; [bound] is what
    [c.Bind] gave, [inl] its error. *)
Definition Flat_HandleJenkinsWebhook (o : Outside) (w : WebhookHandler)
    (bound : string + Flat.JenkinsWebhook) : IO (list Event * Reply) :=
  match bound with
  | inl err => ret ([Logged ("Error binding payload: " ++ err)], invalidPayload)
  | inr payload =>
      let received :=
        Logged ("Received Jenkins webhook: " ++ Flat.ProjectName payload ++ " - "
                ++ Flat.BuildName payload ++ " - " ++ Flat.Event payload) in
      discordPayload <- Flat.convertToDiscordPayload payload ;;
      let '(events, err) := sendToDiscord o w discordPayload in
      match err with
      | Some e =>
          ret (received :: events ++ [Logged ("Error sending to Discord: " ++ e)],
               failedToSend)%list
      | None => ret (received :: events, success)
      end
  end.

(** [HandleJenkinsWebhook] of the nested variant. *)
Definition Nested_HandleJenkinsWebhook (o : Outside) (w : WebhookHandler)
    (bound : string + Nested.JenkinsWebhook) : IO (list Event * Reply) :=
  match bound with
  | inl err => ret ([Logged ("Error binding payload: " ++ err)], invalidPayload)
  | inr payload =>
      let received :=
        Logged ("Received Jenkins webhook: " ++ Nested.Name payload ++ " - Build #"
                ++ fmt.FormatInt (Nested.Build.Number (Nested.Build payload)) ++ " - "
                ++ Nested.Build.Status (Nested.Build payload)) in
      discordPayload <- Nested.convertToDiscordPayload payload ;;
      let '(events, err) := sendToDiscord o w discordPayload in
      match err with
      | Some e =>
          ret (received :: events ++ [Logged ("Error sending to Discord: " ++ e)],
               failedToSend)%list
      | None => ret (received :: events, success)
      end
  end.

(** ** [main], up to and around [e.Start] *)

Inductive Exit :=
| Fatal (msg : string)
| Return.

Inductive MainEvent :=
| Printed (line : string)
| Serve (handler : WebhookHandler) (addr : string).

(** [getenv] is [os.Getenv] (the empty string for an unset variable);
    [Start] is the error [e.Start] returns for an address, if any. *)
Definition main (getenv : string -> string) (Start : string -> option string)
  : list MainEvent * Exit :=
  let discordURL := getenv "DISCORD_WEBHOOK_URL" in
  if discordURL == "" then ([], Fatal "DISCORD_WEBHOOK_URL environment variable is required")
  else
    let jenkinsURL := getenv "JENKINS_URL" in
    let port := getenv "PORT" in
    let port := if port == "" then "8080" else port in
    match strconv.Atoi port with
    | None => ([], Fatal ("Invalid PORT value: " ++ port))
    | Some _ =>
        let handler := NewWebhookHandler discordURL jenkinsURL in
        let events :=
          [ Printed ("Starting server on port " ++ port);
            Printed ("Jenkins webhook endpoint: http://localhost:" ++ port ++ "/webhook/jenkins");
            Printed ("Print request body endpoint: http://localhost:" ++ port ++ "/webhook/print");
            Printed ("Health check endpoint: http://localhost:" ++ port ++ "/health");
            Serve handler (":" ++ port) ] in
        match Start (":" ++ port) with
        | Some err => (events, Fatal ("Failed to start server: " ++ err))
        | None => (events, Return)
        end
    end.

(** ** Notions the further properties speak of *)

(** The names the flat variant knows an event by. *)
Definition knownEvents : list string :=
  ["success"; "failure"; "failed"; "unstable"; "aborted"; "started"].

(** The result codes the nested variant knows. *)
Definition knownResults : list string :=
  ["SUCCESS"; "FAILURE"; "UNSTABLE"; "ABORTED"].

(** The five colours of a card. *)
Definition palette : list Z :=
  [0x00FF00; 0xFF0000; 0xFFA500; 0x808080; 0x0099FF].

(** The calls of [client.Do] among the events. *)
Fixpoint requests (events : list Event) : list http.Request :=
  match events with
  | [] => []
  | Do req :: rest => req :: requests rest
  | _ :: rest => requests rest
  end.

Fixpoint closings (events : list Event) : nat :=
  match events with
  | [] => O
  | Closed :: rest => S (closings rest)
  | _ :: rest => closings rest
  end.

(** The request [sendToDiscord] builds for a payload. *)
Definition postTo (w : WebhookHandler) (payload : DiscordWebhook) : http.Request :=
  {| http.Method := "POST";
     http.URL := discordURL w;
     http.Header := [("Content-Type", "application/json")];
     http.Body := Marshal payload |}.

(** The destination took the payload: the request could be built and
    was answered with a status from 200 to 299. *)
Definition delivered (o : Outside) (w : WebhookHandler) (payload : DiscordWebhook) : bool :=
  match urlError o (discordURL w) with
  | Some _ => false
  | None =>
      match roundTrip o (postTo w payload) with
      | http.Failed _ => false
      | http.Answered code => (200 <=? code) && (code <=? 299)
      end
  end.

(** The value of a decimal numeral read from the left, [acc] being the
    digits read so far. *)
Fixpoint uintValue (d : Decimal.uint) (acc : Z) : Z :=
  match d with
  | Decimal.Nil => acc
  | Decimal.D0 l => uintValue l (acc * 10 + 0)
  | Decimal.D1 l => uintValue l (acc * 10 + 1)
  | Decimal.D2 l => uintValue l (acc * 10 + 2)
  | Decimal.D3 l => uintValue l (acc * 10 + 3)
  | Decimal.D4 l => uintValue l (acc * 10 + 4)
  | Decimal.D5 l => uintValue l (acc * 10 + 5)
  | Decimal.D6 l => uintValue l (acc * 10 + 6)
  | Decimal.D7 l => uintValue l (acc * 10 + 7)
  | Decimal.D8 l => uintValue l (acc * 10 + 8)
  | Decimal.D9 l => uintValue l (acc * 10 + 9)
  end.

(** * Status classification *)

Section Classification.

Import Nested.

Lemma eqb_false_of_neq (a b : string) : a <> b -> (a == b) = false.
Proof. intro H. apply String.eqb_neq. exact H. Qed.

(** C5.  A result of the fixed vocabulary decides colour and label by
    itself, whatever the status: SUCCESS is green, FAILURE red, UNSTABLE
    orange and ABORTED gray, each with its own label. *)
Theorem classify_recognized_result (s : string) :
  Classify "SUCCESS" s = (0x00FF00, "✅ Success")
  /\ Classify "FAILURE" s = (0xFF0000, "❌ Failure")
  /\ Classify "UNSTABLE" s = (0xFFA500, "⚠️ Unstable")
  /\ Classify "ABORTED" s = (0x808080, "🛑 Aborted").
Proof. repeat split. Qed.

(** C4.  With an empty result the status decides: STARTED is blue,
    COMPLETED is green, and every other status, the empty one too, is
    gray with the status itself as the label. *)
Theorem classify_empty_result (s : string) :
  Classify "" "STARTED" = (0x0099FF, "🔄 Started")
  /\ Classify "" "COMPLETED" = (0x00FF00, "✅ Completed")
  /\ (s <> "STARTED" -> s <> "COMPLETED" -> Classify "" s = (0x808080, s)).
Proof.
  split; [reflexivity | split; [reflexivity | ]].
  intros Hs Hc. unfold Classify, getStatusColor, getStatusText. simpl.
  rewrite (eqb_false_of_neq _ _ Hs), (eqb_false_of_neq _ _ Hc). reflexivity.
Qed.

Lemma classify_empty_result_witness :
  Classify "" "" = (0x808080, "") /\ Classify "" "started" = (0x808080, "started").
Proof.
  split.
  - apply (proj2 (proj2 (classify_empty_result ""))); discriminate.
  - apply (proj2 (proj2 (classify_empty_result "started"))); discriminate.
Defined.

(** C1, at the input where the code leaves it.  The result "weird-code"
    is outside the vocabulary and the status is STARTED: the label is
    the result, as the claim says, but the colour is the blue of the
    status, not gray, because [getStatusColor] consults the status. *)
Theorem classify_unrecognized_result_started :
  Classify "weird-code" "STARTED" = (0x0099FF, "weird-code")
  /\ Classify "weird-code" "COMPLETED" = (0x00FF00, "weird-code")
  /\ Classify "weird-code" "" = (0x808080, "weird-code").
Proof. repeat split. Qed.

End Classification.

(** * Card assembly of the nested variant *)

Section CardAssembly.

Import Nested.

(** C8.  The nested conversion yields one card: title, description,
    link and footer as stated, the four inline fields Build Number,
    Status, Duration and Phase in this order, and after them the field
    Cause, not inline, exactly when the cause is not empty; so the card
    has five fields with a cause and four without. *)
Theorem nested_card_assembly (jenkins : JenkinsWebhook) (w : World) :
  let b := Build jenkins in
  exists card : DiscordEmbed,
    convertToDiscordPayload jenkins w = {| Content := ""; Embeds := [card] |}
    /\ Title card = DisplayName jenkins ++ " - Build #" ++ fmt.FormatInt (Build.Number b)
    /\ Description card = Build.FullDisplayName b
    /\ Discord.URL card = Build.URL b
    /\ Footer card = Some {| Text := "Jenkins CI/CD" |}
    /\ firstn 4 (Fields card) =
         [ {| Discord.Name := "Build Number";
              Value := "#" ++ fmt.FormatInt (Build.Number b); Inline := true |};
           {| Discord.Name := "Status";
              Value := snd (Classify (Build.Result b) (Build.Status b)); Inline := true |};
           {| Discord.Name := "Duration";
              Value := formatDuration (Build.Duration b); Inline := true |};
           {| Discord.Name := "Phase"; Value := Build.Phase b; Inline := true |} ]
    /\ skipn 4 (Fields card) =
         (if Build.Cause b == "" then []
          else [ {| Discord.Name := "Cause"; Value := Build.Cause b; Inline := false |} ])
    /\ (List.length (Fields card) = 5%nat <-> Build.Cause b <> "")
    /\ (List.length (Fields card) = 4%nat <-> Build.Cause b = "").
Proof.
  intro b. unfold convertToDiscordPayload, bind, ret. fold b.
  eexists. split; [reflexivity | ]. cbn [Title Description Discord.URL Footer Fields].
  repeat (split; [reflexivity | ]).
  destruct (Build.Cause b == "") eqn:E; cbn.
  - apply String.eqb_eq in E. repeat split; try reflexivity; try discriminate; congruence.
  - apply String.eqb_neq in E. repeat split; try reflexivity; try discriminate; congruence.
Qed.

End CardAssembly.

(** * Timestamps and determinism *)

Section Timestamps.

Lemma nested_timestamp (jenkins : Nested.JenkinsWebhook) (w : World) :
  cardTimestamps (Nested.convertToDiscordPayload jenkins w) =
  [ time.FormatRFC3339 (Local w)
      {| time.unixSec := Z.quot (Nested.Build.Timestamp (Nested.Build jenkins)) 1000;
         time.nanos := 0 |} ].
Proof. reflexivity. Qed.

Lemma quot_eq_div_nonneg (t : Z) : 0 <= t -> Z.quot t 1000 = t / 1000.
Proof. intro H. apply Z.quot_div_nonneg; lia. Qed.

(** C9, as it holds.  The card timestamp is the RFC 3339 rendering, in
    the local zone, of the instant whose epoch seconds are the inbound
    milliseconds divided by 1000 with Go's [/], which drops the
    fraction toward zero.  Two events whose timestamps have the same
    quotient get the same timestamp; two timestamps that are not
    negative and lie in the same whole second are such a pair. *)
Theorem nested_timestamp_truncates (j1 j2 : Nested.JenkinsWebhook) (w : World) :
  let t1 := Nested.Build.Timestamp (Nested.Build j1) in
  let t2 := Nested.Build.Timestamp (Nested.Build j2) in
  cardTimestamps (Nested.convertToDiscordPayload j1 w) =
    [ time.FormatRFC3339 (Local w) (time.Unix (Z.quot t1 1000) 0) ]
  /\ (Z.quot t1 1000 = Z.quot t2 1000 ->
      cardTimestamps (Nested.convertToDiscordPayload j1 w) =
      cardTimestamps (Nested.convertToDiscordPayload j2 w))
  /\ (0 <= t1 -> 0 <= t2 -> same_whole_second t1 t2 ->
      cardTimestamps (Nested.convertToDiscordPayload j1 w) =
      cardTimestamps (Nested.convertToDiscordPayload j2 w)).
Proof.
  intros t1 t2. split; [reflexivity | ].
  assert (Hq : Z.quot t1 1000 = Z.quot t2 1000 ->
               cardTimestamps (Nested.convertToDiscordPayload j1 w) =
               cardTimestamps (Nested.convertToDiscordPayload j2 w)).
  { intro H. rewrite !nested_timestamp. fold t1 t2. rewrite H. reflexivity. }
  split; [exact Hq | ].
  intros H1 H2 Hs. apply Hq.
  rewrite !quot_eq_div_nonneg by assumption. exact Hs.
Qed.

Lemma nested_timestamp_truncates_witness :
  cardTimestamps (Nested.convertToDiscordPayload (stampedAt 1642584000000) epochUTC) =
  cardTimestamps (Nested.convertToDiscordPayload (stampedAt 1642584000999) epochUTC).
Proof.
  apply (proj2 (proj2 (nested_timestamp_truncates
                         (stampedAt 1642584000000) (stampedAt 1642584000999) epochUTC)));
    simpl; try lia; reflexivity.
Defined.

(** C9 as stated fails before the epoch: -1000 ms and -1 ms both lie in
    the second 1969-12-31T23:59:59, but Go's [/] takes -1000 to -1 and
    -1 to 0, and the two cards carry different seconds. *)
Lemma nested_timestamp_same_second_counterexample :
  same_whole_second (-1000) (-1)
  /\ cardTimestamps (Nested.convertToDiscordPayload (stampedAt (-1000)) epochUTC)
       = ["1969-12-31T23:59:59Z"]
  /\ cardTimestamps (Nested.convertToDiscordPayload (stampedAt (-1)) epochUTC)
       = ["1970-01-01T00:00:00Z"]
  /\ cardTimestamps (Nested.convertToDiscordPayload (stampedAt (-1000)) epochUTC)
       <> cardTimestamps (Nested.convertToDiscordPayload (stampedAt (-1)) epochUTC).
Proof.
  split; [reflexivity | ].
  split; [vm_compute; reflexivity | ].
  split; [vm_compute; reflexivity | ].
  vm_compute. discriminate.
Qed.

(** C3, as it holds.  In one process (one local zone) the nested
    conversion gives the same payload whatever the clock reads.  The
    flat conversion gives the same payload but for the card timestamp,
    which is the clock reading of the invocation in RFC 3339. *)
Theorem convert_determinism (loc : time.Location) (c1 c2 : time.Time)
    (jn : Nested.JenkinsWebhook) (jf : Flat.JenkinsWebhook) :
  let w1 := {| clock := c1; Local := loc |} in
  let w2 := {| clock := c2; Local := loc |} in
  Nested.convertToDiscordPayload jn w1 = Nested.convertToDiscordPayload jn w2
  /\ withoutTimestamps (Flat.convertToDiscordPayload jf w1) =
     withoutTimestamps (Flat.convertToDiscordPayload jf w2)
  /\ cardTimestamps (Flat.convertToDiscordPayload jf w1) = [ time.FormatRFC3339 loc c1 ].
Proof.
  intros w1 w2. split; [ | split].
  - unfold Nested.convertToDiscordPayload, bind, ret, Format_RFC3339. reflexivity.
  - unfold Flat.convertToDiscordPayload, bind, ret, Format_RFC3339, Now, withoutTimestamps.
    cbn [Embeds Content map Title Description URL Color Fields Footer]. reflexivity.
  - reflexivity.
Qed.

(** C3 as stated fails in the flat variant: the same event converted at
    two clock readings one second apart gives two different payloads. *)
Lemma flat_convert_clock_counterexample :
  Flat.convertToDiscordPayload sampleFlat epochUTC
  <> Flat.convertToDiscordPayload sampleFlat epochUTC_later.
Proof.
  intro H. apply (f_equal cardTimestamps) in H. vm_compute in H. discriminate H.
Qed.

End Timestamps.

(** * The build-variables parser of the flat variant *)

Section BuildVars.

Import strings.

Lemma append_assoc (a b c : string) : (a ++ b) ++ c = a ++ b ++ c.
Proof. induction a as [| x a IH]; simpl; [reflexivity | now rewrite IH]. Qed.

Lemma bracesOnly_app (a b : string) :
  bracesOnly a = true -> bracesOnly b = true -> bracesOnly (a ++ b) = true.
Proof.
  induction a as [| x a IH]; simpl; intros Ha Hb; [exact Hb | ].
  apply andb_true_iff in Ha as [Hx Ha]. rewrite Hx. simpl. now apply IH.
Qed.









(** ** Splitting *)





Lemma Index_cons (c : ascii) (s sep : string) :
  Index (String c s) sep =
  if HasPrefix (String c s) sep then Some O else option_map S (Index s sep).
Proof. reflexivity. Qed.











(** ** Entries *)

Lemma Index_byte (c a : ascii) (s : string) :
  Index (String a s) (String c "") =
  if Ascii.eqb a c then Some O else option_map S (Index s (String c "")).
Proof.
  rewrite Index_cons. unfold HasPrefix. simpl.
  destruct (ascii_dec c a) as [-> | N].
  - rewrite Ascii.eqb_refl. now destruct s.
  - destruct (Ascii.eqb a c) eqn:E; [ | reflexivity].
    apply Ascii.eqb_eq in E. congruence.
Qed.

(** [cutFirst] cuts where [Index] finds the byte. *)
Lemma cutFirst_Index (c : ascii) (s : string) :
  cutFirst c s =
  match Index s (String c "") with
  | Some m => Some (take m s, skip (m + 1) s)
  | None => None
  end.
Proof.
  induction s as [| a s IH]; [reflexivity | ].
  rewrite Index_byte. simpl. destruct (Ascii.eqb a c); [reflexivity | ].
  rewrite IH. destruct (Index s (String c "")); reflexivity.
Qed.



(** [SplitN(v, "=", 2)] has two parts exactly when [v] holds the byte,
    and they are what stands before and after its first instance. *)
Lemma SplitN_2 (c : ascii) (v : string) :
  SplitN v (String c "") 2 =
  match cutFirst c v with
  | Some (k, w) => [k; w]
  | None => [v]
  end.
Proof.
  rewrite cutFirst_Index. destruct v as [| a v]; [reflexivity | ].
  unfold SplitN. replace (Nat.min 2 (String.length (String a v) + 1) - 1)%nat with 1%nat
    by (cbn [String.length]; lia).
  cbn [genSplit_loop]. destruct (Index (String a v) (String c "")); reflexivity.
Qed.

Lemma formatBuildVars_loop_spec (vars formatted : list string) :
  Flat.formatBuildVars_loop vars formatted = (formatted ++ flat_map renderEntry vars)%list.
Proof.
  revert formatted. induction vars as [| v vars IH]; intro formatted.
  - simpl. now rewrite app_nil_r.
  - cbn [Flat.formatBuildVars_loop flat_map]. rewrite IH, SplitN_2. unfold renderEntry.
    destruct (cutFirst "=" v) as [[k w] | ]; simpl.
    + now rewrite <- app_assoc.
    + reflexivity.
Qed.

Lemma formatBuildVars_renderEntries (raw : string) :
  Flat.formatBuildVars raw = renderEntries (Trim raw "{}").
Proof.
  unfold Flat.formatBuildVars, renderEntries.
  destruct (raw == "") eqn:Eraw.
  - apply String.eqb_eq in Eraw. subst raw. reflexivity.
  - destruct (Trim raw "{}" == "") eqn:Ec.
    + apply String.eqb_eq in Ec. rewrite Ec. reflexivity.
    + now rewrite formatBuildVars_loop_spec.
Qed.



End BuildVars.

(** * Durations: [float64] arithmetic

    The two shifts of [binary_round_aux] are laid open once; from them
    follow that rounding keeps a value on its side of 1, keeps its sign
    and does not overflow on the magnitudes of a duration. *)

Section Float64.

Import time.

Lemma fexp64_eq (x : Z) : fexp 53 1024 x = Z.max (x - 53) (-1074).
Proof. reflexivity. Qed.

Lemma digits2_size (p : positive) : digits2_pos p = Pos.size p.
Proof. induction p; simpl; congruence. Qed.

Lemma dg_log2 (p : positive) : Zdigits2 (Zpos p) = Z.succ (Z.log2 (Zpos p)).
Proof.
  simpl. rewrite digits2_size. destruct p; simpl; try reflexivity; now rewrite Pos.add_1_r.
Qed.

Lemma dg_bounds (p : positive) :
  2 ^ (Zdigits2 (Zpos p) - 1) <= Zpos p < 2 ^ Zdigits2 (Zpos p).
Proof.
  rewrite dg_log2. replace (Z.succ (Z.log2 (Zpos p)) - 1) with (Z.log2 (Zpos p)) by lia.
  apply Z.log2_spec. lia.
Qed.

Lemma dg_pos (p : positive) : 1 <= Zdigits2 (Zpos p).
Proof. simpl. lia. Qed.

Lemma dg_le (p : positive) (k : Z) : Zpos p < 2 ^ k -> Zdigits2 (Zpos p) <= k.
Proof.
  intro H. destruct (dg_bounds p) as [L _].
  destruct (Z.le_gt_cases (Zdigits2 (Zpos p)) k) as [ | G]; [assumption | exfalso].
  assert (0 <= k). { destruct (Z.le_gt_cases 0 k); [assumption | ]. rewrite Z.pow_neg_r in H by lia. lia. }
  assert (2 ^ k <= 2 ^ (Zdigits2 (Zpos p) - 1)) by (apply Z.pow_le_mono_r; lia).
  lia.
Qed.

Lemma dg_ge (p : positive) (k : Z) : 2 ^ k <= Zpos p -> k + 1 <= Zdigits2 (Zpos p).
Proof.
  intro H. destruct (dg_bounds p) as [_ U]. pose proof (dg_pos p).
  destruct (Z.le_gt_cases (k + 1) (Zdigits2 (Zpos p))) as [ | G]; [assumption | exfalso].
  assert (2 ^ Zdigits2 (Zpos p) <= 2 ^ k) by (apply Z.pow_le_mono_r; lia).
  lia.
Qed.

Lemma shr_1_m (r : shr_record) : 0 <= shr_m r -> shr_m (shr_1 r) = shr_m r / 2.
Proof.
  destruct r as [m rb sb]. simpl. intro H. rewrite <- Z.div2_div.
  destruct m as [ | [p | p | ] | p]; try reflexivity; lia.
Qed.

Lemma iter_shr_m (p : positive) (r : shr_record) :
  0 <= shr_m r ->
  0 <= shr_m (iter_pos shr_1 p r) /\ shr_m (iter_pos shr_1 p r) = shr_m r / 2 ^ Zpos p.
Proof.
  revert r. induction p as [p IH | p IH | ]; intros r H; simpl iter_pos.
  - assert (H1 : 0 <= shr_m (shr_1 r)) by (rewrite shr_1_m by assumption; apply Z.div_pos; lia).
    destruct (IH _ H1) as [H2 E2]. destruct (IH _ H2) as [H3 E3].
    split; [assumption | ]. rewrite E3, E2, shr_1_m by assumption.
    rewrite !Z.div_div by lia. f_equal.
    replace (Zpos p~1) with (1 + Zpos p + Zpos p) by lia.
    rewrite !Z.pow_add_r by lia. change (2 ^ 1) with 2. lia.
  - destruct (IH _ H) as [H2 E2]. destruct (IH _ H2) as [H3 E3].
    split; [assumption | ]. rewrite E3, E2. rewrite Z.div_div by lia. f_equal.
    replace (Zpos p~0) with (Zpos p + Zpos p) by lia.
    rewrite Z.pow_add_r by lia. reflexivity.
  - rewrite shr_1_m by assumption. split; [apply Z.div_pos; lia | reflexivity].
Qed.

Lemma shr_record_of_loc_m (m : Z) (l : location) : shr_m (shr_record_of_loc m l) = m.
Proof. destruct l as [ | [ | | ]]; reflexivity. Qed.

Lemma loc_of_shr_record_of_loc (m : Z) (l : location) :
  loc_of_shr_record (shr_record_of_loc m l) = l.
Proof. destruct l as [ | [ | | ]]; reflexivity. Qed.

Lemma shr_fexp_spec (m e : Z) (l : location) :
  0 <= m ->
  exists r,
    shr_fexp 53 1024 m e l = (r, Z.max e (fexp 53 1024 (Zdigits2 m + e)))
    /\ 0 <= shr_m r
    /\ shr_m r = m / 2 ^ (Z.max e (fexp 53 1024 (Zdigits2 m + e)) - e)
    /\ (Z.max e (fexp 53 1024 (Zdigits2 m + e)) = e -> loc_of_shr_record r = l).
Proof.
  intro H. unfold shr_fexp, shr.
  destruct (fexp 53 1024 (Zdigits2 m + e) - e) as [ | p | p] eqn:E.
  - exists (shr_record_of_loc m l). rewrite shr_record_of_loc_m.
    replace (Z.max e (fexp 53 1024 (Zdigits2 m + e))) with e by lia.
    rewrite Z.sub_diag, Z.div_1_r. repeat split; auto using loc_of_shr_record_of_loc.
  - exists (iter_pos shr_1 p (shr_record_of_loc m l)).
    replace (Z.max e (fexp 53 1024 (Zdigits2 m + e))) with (e + Zpos p) by lia.
    destruct (iter_shr_m p (shr_record_of_loc m l)) as [N V];
      [now rewrite shr_record_of_loc_m | ].
    rewrite shr_record_of_loc_m in V.
    replace (e + Zpos p - e) with (Zpos p) by lia. repeat split; auto. lia.
  - exists (shr_record_of_loc m l). rewrite shr_record_of_loc_m.
    replace (Z.max e (fexp 53 1024 (Zdigits2 m + e))) with e by lia.
    rewrite Z.sub_diag, Z.div_1_r. repeat split; auto using loc_of_shr_record_of_loc.
Qed.

Lemma round_nearest_even_bounds (m : Z) (l : location) :
  m <= round_nearest_even m l <= m + 1.
Proof. destruct l as [ | [ | | ]]; simpl; try lia. destruct (Z.even m); lia. Qed.

(** The two shifts and the rounding between them, laid open. *)
Lemma binary_round_aux_spec (s : bool) (m e : Z) (l : location) :
  0 <= m ->
  exists m2,
    m / 2 ^ (Z.max e (fexp 53 1024 (Zdigits2 m + e)) - e) <= m2
      <= m / 2 ^ (Z.max e (fexp 53 1024 (Zdigits2 m + e)) - e) + 1
    /\ (l = loc_Exact -> Z.max e (fexp 53 1024 (Zdigits2 m + e)) = e -> m2 = m)
    /\ binary_round_aux 53 1024 s m e l =
       match m2 / 2 ^ (Z.max (Z.max e (fexp 53 1024 (Zdigits2 m + e)))
                             (fexp 53 1024 (Zdigits2 m2 + Z.max e (fexp 53 1024 (Zdigits2 m + e))))
                       - Z.max e (fexp 53 1024 (Zdigits2 m + e))) with
       | Z0 => S754_zero s
       | Zpos m3 =>
           if Z.max (Z.max e (fexp 53 1024 (Zdigits2 m + e)))
                    (fexp 53 1024 (Zdigits2 m2 + Z.max e (fexp 53 1024 (Zdigits2 m + e)))) <=? 971
           then S754_finite s m3
                  (Z.max (Z.max e (fexp 53 1024 (Zdigits2 m + e)))
                         (fexp 53 1024 (Zdigits2 m2 + Z.max e (fexp 53 1024 (Zdigits2 m + e)))))
           else S754_infinity s
       | Zneg _ => S754_nan
       end.
Proof.
  intro H. unfold binary_round_aux.
  destruct (shr_fexp_spec m e l H) as (r1 & E1 & N1 & V1 & L1). rewrite E1.
  set (e1 := Z.max e (fexp 53 1024 (Zdigits2 m + e))) in *.
  set (m2 := round_nearest_even (shr_m r1) (loc_of_shr_record r1)).
  assert (B : shr_m r1 <= m2 <= shr_m r1 + 1) by apply round_nearest_even_bounds.
  assert (N2 : 0 <= m2) by lia.
  destruct (shr_fexp_spec m2 e1 loc_Exact N2) as (r2 & E2 & N3 & V2 & _). rewrite E2.
  exists m2. rewrite <- V1. split; [exact B | ]. split.
  - intros -> He. unfold m2. rewrite (L1 He). simpl. rewrite V1, He, Z.sub_diag. apply Z.div_1_r.
  - rewrite V2. reflexivity.
Qed.

Lemma one64_eq : float64_of_int 1 = S754_finite false 4503599627370496 (-52).
Proof. vm_compute. reflexivity. Qed.

Lemma geOne_fge (x : spec_float) : geOne x -> fge x (float64_of_int 1) = true.
Proof.
  rewrite one64_eq. unfold fge, SFleb.
  destruct x as [ | [ | ] | | [ | ] m e]; cbn [geOne SFcompare]; try contradiction; try reflexivity.
  intros [U L].
  destruct (Z.compare_spec (-52) e) as [E | E | E]; try reflexivity.
  - subst e. change (- -52) with 52 in L.
    rewrite Pos.compare_cont_spec. cbn [Pos.switch_Eq].
    destruct (Pos.compare_spec 4503599627370496 m) as [ | | G]; try reflexivity.
    exfalso. apply Pos2Z.pos_lt_pos in G. revert G L. generalize (Zpos m). intros z G L.
    change (2 ^ 52) with 4503599627370496 in L. lia.
  - exfalso. assert (2 ^ 53 <= 2 ^ (- e)) by (apply Z.pow_le_mono_r; lia). lia.
Qed.

Lemma ltOne_fge (x : spec_float) : ltOne x -> fge x (float64_of_int 1) = false.
Proof.
  rewrite one64_eq. unfold fge, SFleb.
  destruct x as [ | [ | ] | | [ | ] m e]; cbn [ltOne SFcompare]; try contradiction; try reflexivity.
  intro L. destruct (Z.compare_spec (-52) e) as [E | E | E]; try reflexivity; lia.
Qed.

Lemma notPositive_fge (x : spec_float) : notPositive x -> fge x (float64_of_int 1) = false.
Proof.
  rewrite one64_eq. unfold fge, SFleb.
  destruct x as [ | [ | ] | | [ | ] m e]; cbn [notPositive SFcompare]; try contradiction; reflexivity.
Qed.

Lemma div_pow_lower (m a k : Z) : 0 <= k -> 0 <= a -> 2 ^ (a + k) <= m -> 2 ^ a <= m / 2 ^ k.
Proof.
  intros Hk Ha H. apply Z.div_le_lower_bound; [apply Z.pow_pos_nonneg; lia | ].
  rewrite Z.pow_add_r in H by lia. lia.
Qed.

Lemma div_pow_upper (m a k : Z) : 0 <= k -> 0 <= a -> m < 2 ^ (a + k) -> m / 2 ^ k < 2 ^ a.
Proof.
  intros Hk Ha H. apply Z.div_lt_upper_bound; [apply Z.pow_pos_nonneg; lia | ].
  rewrite Z.pow_add_r in H by lia. lia.
Qed.

(** Rounding a value that is at least 1 gives at least 1. *)
Lemma round_geOne (m : positive) (e : Z) (l : location) :
  2 ^ (- e) <= Zpos m -> e <= fexp 53 1024 (Zdigits2 (Zpos m) + e) ->
  geOne (binary_round_aux 53 1024 false (Zpos m) e l).
Proof.
  intros Hv He.
  destruct (binary_round_aux_spec false (Zpos m) e l) as (m2 & B & _ & ->); [lia | ].
  pose proof (dg_bounds m) as [DL DU]. pose proof (dg_pos m) as D1.
  rewrite fexp64_eq in He.
  assert (HD : 1 <= Zdigits2 (Zpos m) + e).
  { destruct (Z.le_gt_cases e 0); [ | lia]. pose proof (dg_ge m (- e) Hv). lia. }
  revert B. rewrite !fexp64_eq.
  replace (Z.max e (Z.max (Zdigits2 (Zpos m) + e - 53) (-1074))) with (Zdigits2 (Zpos m) + e - 53) by lia.
  set (f := Zdigits2 (Zpos m) + e - 53). replace (f - e) with (Zdigits2 (Zpos m) - 53) by lia.
  intro B.
  assert (L1 : 2 ^ 52 <= Zpos m / 2 ^ (Zdigits2 (Zpos m) - 53)).
  { apply div_pow_lower; try lia. now replace (52 + (Zdigits2 (Zpos m) - 53)) with (Zdigits2 (Zpos m) - 1) by lia. }
  assert (U1 : Zpos m / 2 ^ (Zdigits2 (Zpos m) - 53) < 2 ^ 53).
  { apply div_pow_upper; try lia. now replace (53 + (Zdigits2 (Zpos m) - 53)) with (Zdigits2 (Zpos m)) by lia. }
  destruct m2 as [ | p2 | p2]; try lia.
  assert (53 <= Zdigits2 (Zpos p2)) by (pose proof (dg_ge p2 52); lia).
  assert (Zdigits2 (Zpos p2) <= 54).
  { apply dg_le. change (2 ^ 54) with (2 * 2 ^ 53). lia. }
  pose proof (dg_bounds p2) as [PL PU].
  replace (Z.max f (Z.max (Zdigits2 (Zpos p2) + f - 53) (-1074))) with (f + (Zdigits2 (Zpos p2) - 53)) by lia.
  replace (f + (Zdigits2 (Zpos p2) - 53) - f) with (Zdigits2 (Zpos p2) - 53) by lia.
  assert (L3 : 2 ^ 52 <= Zpos p2 / 2 ^ (Zdigits2 (Zpos p2) - 53)).
  { apply div_pow_lower; try lia. now replace (52 + (Zdigits2 (Zpos p2) - 53)) with (Zdigits2 (Zpos p2) - 1) by lia. }
  assert (U3 : Zpos p2 / 2 ^ (Zdigits2 (Zpos p2) - 53) < 2 ^ 53).
  { apply div_pow_upper; try lia. now replace (53 + (Zdigits2 (Zpos p2) - 53)) with (Zdigits2 (Zpos p2)) by lia. }
  destruct (Zpos p2 / 2 ^ (Zdigits2 (Zpos p2) - 53)) as [ | p3 | p3]; try lia.
  destruct (f + (Zdigits2 (Zpos p2) - 53) <=? 971); cbn [geOne]; [ | exact I].
  split; [exact U3 | ].
  destruct (Z.le_gt_cases 0 (- (f + (Zdigits2 (Zpos p2) - 53)))) as [G | G].
  - assert (2 ^ (- (f + (Zdigits2 (Zpos p2) - 53))) <= 2 ^ 52) by (apply Z.pow_le_mono_r; lia). lia.
  - rewrite Z.pow_neg_r by lia. lia.
Qed.

Lemma pos_iter_xO (m d : positive) : Zpos (Pos.iter xO m d) = Zpos m * 2 ^ Zpos d.
Proof.
  induction d as [ | d IH] using Pos.peano_ind.
  - cbn [Pos.iter]. change (2 ^ 1) with 2. lia.
  - rewrite Pos.iter_succ, Pos2Z.inj_xO, IH, Pos2Z.inj_succ, Z.pow_succ_r by lia. lia.
Qed.

Lemma shl_align_spec (m : positive) (e e' : Z) :
  exists m', shl_align m e e' = (m', Z.min e e')
             /\ Zpos m' = Zpos m * 2 ^ (e - Z.min e e').
Proof.
  unfold shl_align. destruct (e' - e) as [ | d | d] eqn:E.
  - exists m. replace (Z.min e e') with e by lia. rewrite Z.sub_diag. split; [reflexivity | lia].
  - exists m. replace (Z.min e e') with e by lia. rewrite Z.sub_diag. split; [reflexivity | lia].
  - exists (Pos.iter xO m d). replace (Z.min e e') with e' by lia.
    split; [reflexivity | ]. rewrite pos_iter_xO. f_equal. f_equal. lia.
Qed.

Lemma dg_shift (m m' : positive) (k : Z) :
  0 <= k -> Zpos m' = Zpos m * 2 ^ k -> Zdigits2 (Zpos m') = Zdigits2 (Zpos m) + k.
Proof.
  intros Hk E. pose proof (dg_bounds m) as [L U]. pose proof (dg_pos m).
  assert (P : 0 < 2 ^ k) by (apply Z.pow_pos_nonneg; lia).
  assert (Zdigits2 (Zpos m') <= Zdigits2 (Zpos m) + k).
  { apply dg_le. rewrite E, Z.pow_add_r by lia. nia. }
  assert (Zdigits2 (Zpos m) - 1 + k + 1 <= Zdigits2 (Zpos m')).
  { apply dg_ge. rewrite E, Z.pow_add_r by lia. nia. }
  lia.
Qed.

Lemma binary_round_geOne (m : positive) (e : Z) :
  2 ^ (- e) <= Zpos m -> geOne (binary_round 53 1024 false m e).
Proof.
  intro Hv. unfold binary_round.
  change (Zpos (digits2_pos m)) with (Zdigits2 (Zpos m)).
  destruct (shl_align_spec m e (fexp 53 1024 (Zdigits2 (Zpos m) + e))) as (m' & -> & E).
  set (f := fexp 53 1024 (Zdigits2 (Zpos m) + e)) in *.
  assert (K : 0 <= e - Z.min e f) by lia.
  pose proof (dg_shift m m' _ K E) as D.
  assert (P : 0 < 2 ^ (e - Z.min e f)) by (apply Z.pow_pos_nonneg; lia).
  apply round_geOne.
  - destruct (Z.le_gt_cases 0 (- Z.min e f)) as [G | G];
      [ | rewrite Z.pow_neg_r by lia; lia].
    rewrite E. destruct (Z.le_gt_cases e 0) as [G' | G'].
    + replace (- Z.min e f) with (- e + (e - Z.min e f)) by lia.
      rewrite Z.pow_add_r by lia. nia.
    + assert (2 ^ (- Z.min e f) <= 2 ^ (e - Z.min e f)) by (apply Z.pow_le_mono_r; lia).
      nia.
  - rewrite D. replace (Zdigits2 (Zpos m) + (e - Z.min e f) + Z.min e f) with (Zdigits2 (Zpos m) + e) by lia.
    fold f. lia.
Qed.

Lemma dg_nonneg_le (m k : Z) : 0 <= m -> 0 <= k -> m < 2 ^ k -> Zdigits2 m <= k.
Proof.
  intros Hm Hk H. destruct m as [ | p | p]; [exact Hk | now apply dg_le | lia].
Qed.

(** Rounding a value below 1 - 2^-52 gives less than 1. *)
Lemma round_ltOne (m e : Z) (l : location) :
  0 <= m -> e <= -53 -> m <= (2 ^ 53 - 2) * 2 ^ (-53 - e) ->
  ltOne (binary_round_aux 53 1024 false m e l).
Proof.
  intros Hm He Hv.
  destruct (binary_round_aux_spec false m e l Hm) as (m2 & B & _ & ->).
  revert B. rewrite !fexp64_eq.
  assert (P0 : 0 < 2 ^ (-53 - e)) by (apply Z.pow_pos_nonneg; lia).
  assert (D0 : Zdigits2 m + e <= 0).
  { assert (Zdigits2 m <= - e); [ | lia]. apply dg_nonneg_le; try lia.
    replace (- e) with (53 + (-53 - e)) by lia. rewrite Z.pow_add_r by lia. nia. }
  set (e1 := Z.max e (Z.max (Zdigits2 m + e - 53) (-1074))).
  assert (E1 : e1 <= -53) by lia. assert (E1' : e <= e1) by lia.
  intro B.
  assert (P1 : 0 < 2 ^ (e1 - e)) by (apply Z.pow_pos_nonneg; lia).
  assert (P2 : 0 < 2 ^ (-53 - e1)) by (apply Z.pow_pos_nonneg; lia).
  assert (M1 : m / 2 ^ (e1 - e) <= (2 ^ 53 - 2) * 2 ^ (-53 - e1)).
  { apply Z.div_le_upper_bound; [exact P1 | ].
    replace (-53 - e) with ((-53 - e1) + (e1 - e)) in Hv by lia.
    rewrite Z.pow_add_r in Hv by lia. nia. }
  assert (M0 : 0 <= m / 2 ^ (e1 - e)) by (apply Z.div_pos; lia).
  assert (D2 : Zdigits2 m2 + e1 <= 0).
  { assert (Zdigits2 m2 <= - e1); [ | lia]. apply dg_nonneg_le; try lia.
    replace (- e1) with (53 + (-53 - e1)) by lia. rewrite Z.pow_add_r by lia. nia. }
  set (e2 := Z.max e1 (Z.max (Zdigits2 m2 + e1 - 53) (-1074))).
  assert (E2 : e2 <= -53) by lia.
  assert (M3 : 0 <= m2 / 2 ^ (e2 - e1)) by (apply Z.div_pos; [lia | apply Z.pow_pos_nonneg; lia]).
  destruct (m2 / 2 ^ (e2 - e1)) as [ | p3 | p3]; [exact I | | lia].
  replace (e2 <=? 971) with true by (symmetry; apply Z.leb_le; lia).
  exact E2.
Qed.

(** Rounding keeps the sign it is given. *)
Lemma round_sign (s : bool) (m e : Z) (l : location) :
  0 <= m ->
  match binary_round_aux 53 1024 s m e l with
  | S754_zero s' | S754_infinity s' | S754_finite s' _ _ => s' = s
  | S754_nan => False
  end.
Proof.
  intro Hm. destruct (binary_round_aux_spec s m e l Hm) as (m2 & B & _ & ->).
  match goal with |- context [m2 / ?d] =>
    assert (M3 : 0 <= m2 / d); [ | destruct (m2 / d) as [ | p3 | p3]] end.
  - assert (0 <= m / 2 ^ (Z.max e (fexp 53 1024 (Zdigits2 m + e)) - e))
      by (apply Z_div_nonneg_nonneg; [lia | apply Z.pow_nonneg; lia]).
    apply Z_div_nonneg_nonneg; [lia | apply Z.pow_nonneg; lia].
  - reflexivity.
  - match goal with |- context [if ?c then _ else _] => destruct c end; reflexivity.
  - lia.
Qed.

(** An integer below 2^53 converts exactly, to a mantissa of 53 bits. *)
Lemma float64_of_int_exact (z : Z) :
  0 < z < 2 ^ 53 ->
  exists m e, float64_of_int z = S754_finite false m e
              /\ 2 ^ 52 <= Zpos m < 2 ^ 53
              /\ -52 <= e <= 0
              /\ Zpos m = z * 2 ^ (- e).
Proof.
  intros [Hz Hu]. destruct z as [ | p | p]; try lia.
  unfold float64_of_int, binary_normalize, binary_round.
  change (Zpos (digits2_pos p)) with (Zdigits2 (Zpos p)).
  pose proof (dg_pos p) as D1. pose proof (dg_le p 53 Hu) as D2.
  pose proof (dg_bounds p) as [DL DU].
  rewrite Z.add_0_r, fexp64_eq.
  replace (Z.max (Zdigits2 (Zpos p) - 53) (-1074)) with (Zdigits2 (Zpos p) - 53) by lia.
  destruct (shl_align_spec p 0 (Zdigits2 (Zpos p) - 53)) as (m' & -> & E).
  replace (Z.min 0 (Zdigits2 (Zpos p) - 53)) with (Zdigits2 (Zpos p) - 53) in * by lia.
  set (f := Zdigits2 (Zpos p) - 53) in *.
  assert (K : 0 <= 0 - f) by lia.
  pose proof (dg_shift p m' _ K E) as D.
  assert (F : Z.max f (fexp 53 1024 (Zdigits2 (Zpos m') + f)) = f) by (rewrite fexp64_eq; lia).
  destruct (binary_round_aux_spec false (Zpos m') f loc_Exact) as (m2 & _ & X & ->); [lia | ].
  rewrite (X eq_refl F), F, F, Z.sub_diag, Z.div_1_r.
  replace (f <=? 971) with true by (symmetry; apply Z.leb_le; lia).
  exists m', f. split; [reflexivity | ].
  pose proof (dg_bounds m') as [ML MU]. rewrite D in ML, MU.
  replace (Zdigits2 (Zpos p) + (0 - f) - 1) with 52 in ML by lia.
  replace (Zdigits2 (Zpos p) + (0 - f)) with 53 in MU by lia.
  repeat split; try lia. rewrite E. f_equal.
Qed.

Lemma float64_of_int_0 : float64_of_int 0 = S754_zero false.
Proof. reflexivity. Qed.

(** A proper fraction of integers divides to less than 1. *)
Lemma fdiv_ltOne (n U : Z) :
  0 < n < U -> U <= 2 ^ 52 ->
  ltOne (fdiv (float64_of_int n) (float64_of_int U)).
Proof.
  intros [Hn HnU] HU.
  assert (B53 : 2 ^ 52 < 2 ^ 53) by (apply Z.pow_lt_mono_r; lia).
  destruct (float64_of_int_exact n) as (m1 & e1 & -> & [L1 U1] & R1 & V1); [lia | ].
  destruct (float64_of_int_exact U) as (m2 & e2 & -> & [L2 U2] & R2 & V2); [lia | ].
  unfold fdiv, SFdiv, SFdiv_core_binary.
  change (Zdigits2 (Zpos m1)) with (Zdigits2 (Zpos m1)).
  change (Zdigits2 (Zpos m2)) with (Zdigits2 (Zpos m2)).
  assert (G1 : Zdigits2 (Zpos m1) = 53) by (pose proof (dg_le m1 53 U1); pose proof (dg_ge m1 52 L1); lia).
  assert (G2 : Zdigits2 (Zpos m2) = 53) by (pose proof (dg_le m2 53 U2); pose proof (dg_ge m2 52 L2); lia).
  rewrite G1, G2, fexp64_eq.
  assert (P1 : 0 < 2 ^ (- e1)) by (apply Z.pow_pos_nonneg; lia).
  assert (P2 : 0 < 2 ^ (- e2)) by (apply Z.pow_pos_nonneg; lia).
  assert (E12 : e1 <= e2).
  { destruct (Z.le_gt_cases e1 e2) as [ | G]; [assumption | exfalso].
    assert (2 * 2 ^ (- e1) <= 2 ^ (- e2)).
    { replace (- e2) with (1 + (- e1) + (e1 - e2 - 1)) by lia.
      rewrite !Z.pow_add_r by lia. change (2 ^ 1) with 2.
      assert (0 < 2 ^ (e1 - e2 - 1)) by (apply Z.pow_pos_nonneg; lia). nia. }
    change (2 ^ 53) with (2 * 2 ^ 52) in *. nia. }
  replace (Z.min (Z.max (53 + e1 - (53 + e2) - 53) (-1074)) (e1 - e2)) with (e1 - e2 - 53) by lia.
  replace (e1 - e2 - (e1 - e2 - 53)) with 53 by lia.
  rewrite Z.shiftl_mul_pow2 by lia.
  destruct (Z.div_eucl (Zpos m1 * 2 ^ 53) (Zpos m2)) as [q r] eqn:Eq.
  assert (Q : q = Zpos m1 * 2 ^ 53 / Zpos m2) by (unfold Z.div; now rewrite Eq).
  cbn [xorb]. apply round_ltOne.
  - rewrite Q. apply Z.div_pos; lia.
  - lia.
  - rewrite Q. apply Z.div_le_upper_bound; [lia | ].
    replace (-53 - (e1 - e2 - 53)) with (e2 - e1) by lia.
    assert (P3 : 0 < 2 ^ (e2 - e1)) by (apply Z.pow_pos_nonneg; lia).
    assert (S : 2 ^ (- e1) = 2 ^ (- e2) * 2 ^ (e2 - e1)).
    { rewrite <- Z.pow_add_r by lia. f_equal. lia. }
    rewrite V1, V2.
    assert (T : n * 2 ^ 53 <= U * (2 ^ 53 - 2)).
    { change (2 ^ 53) with (2 * 2 ^ 52). nia. }
    transitivity (U * (2 ^ 53 - 2) * 2 ^ (- e1)); [nia | ].
    rewrite S. apply Z.eq_le_incl. ring.
Qed.

Lemma geOne_exponent (m : positive) (e : Z) :
  Zpos m < 2 ^ 53 -> 2 ^ (- e) <= Zpos m -> -52 <= e.
Proof.
  intros U L. destruct (Z.le_gt_cases (-52) e) as [ | G]; [assumption | exfalso].
  assert (2 ^ 53 <= 2 ^ (- e)) by (apply Z.pow_le_mono_r; lia). lia.
Qed.

(** Adding a fraction to a value that is at least 1 keeps it so. *)
Lemma fadd_geOne_ltOne (x q : spec_float) :
  geOne x -> ltOne q -> geOne (fadd x q).
Proof.
  destruct x as [ | [ | ] | | [ | ] mh eh]; cbn [geOne]; try contradiction;
    destruct q as [sq | [ | ] | | [ | ] mq eq]; cbn [ltOne]; try contradiction;
    intros Hx Hq; try exact Hx.
  destruct Hx as [U L]. pose proof (geOne_exponent mh eh U L) as E.
  unfold fadd, SFadd. cbn [cond_Zopp].
  replace (Z.min eh eq) with eq by lia.
  destruct (shl_align_spec mh eh eq) as (a & -> & Va).
  destruct (shl_align_spec mq eq eq) as (b & -> & Vb).
  cbn [fst]. replace (Z.min eh eq) with eq in Va by lia.
  change (Zpos a + Zpos b) with (Zpos (a + b)). cbn [binary_normalize].
  apply binary_round_geOne. rewrite Pos2Z.inj_add, Va.
  assert (P : 0 < 2 ^ (eh - eq)) by (apply Z.pow_pos_nonneg; lia).
  destruct (Z.le_gt_cases eh 0) as [G | G].
  - replace (- eq) with (- eh + (eh - eq)) by lia. rewrite Z.pow_add_r by lia. nia.
  - assert (2 ^ (- eq) <= 2 ^ (eh - eq)) by (apply Z.pow_le_mono_r; lia). nia.
Qed.

Lemma fadd_zero_ltOne (q : spec_float) : ltOne q -> ltOne (fadd (S754_zero false) q).
Proof.
  destruct q as [[ | ] | [ | ] | | [ | ] mq eq]; cbn [ltOne]; try contradiction; intro H;
    try exact I; exact H.
Qed.

Lemma float64_of_int_geOne (h : Z) : 1 <= h -> geOne (float64_of_int h).
Proof.
  intro H. destruct h as [ | p | p]; try lia.
  unfold float64_of_int, binary_normalize. apply binary_round_geOne.
  change (2 ^ (- 0)) with 1. lia.
Qed.

Lemma fdiv_zero (U : Z) :
  0 < U < 2 ^ 53 -> fdiv (S754_zero false) (float64_of_int U) = S754_zero false.
Proof.
  intro H. destruct (float64_of_int_exact U H) as (m & e & -> & _). reflexivity.
Qed.

(** For a positive duration the test [>= 1] on the float is the test
    [U <= d] on the integers. *)
Lemma inUnit_fge_pos (U d : Z) :
  0 < U <= 2 ^ 52 -> 0 < d ->
  fge (inUnit U d) (float64_of_int 1) = (U <=? d).
Proof.
  intros [HU HU'] Hd. unfold inUnit.
  assert (B53 : 2 ^ 52 < 2 ^ 53) by (apply Z.pow_lt_mono_r; lia).
  rewrite Z.quot_div_nonneg, Z.rem_mod_nonneg by lia.
  pose proof (Z.mod_pos_bound d U HU) as [N0 N1].
  assert (Q : ltOne (fdiv (float64_of_int (d mod U)) (float64_of_int U))).
  { destruct (Z.eq_dec (d mod U) 0) as [-> | NZ].
    - rewrite float64_of_int_0, fdiv_zero by lia. exact I.
    - apply fdiv_ltOne; lia. }
  destruct (Z.leb_spec U d) as [G | G].
  - apply geOne_fge, fadd_geOne_ltOne; [ | exact Q].
    apply float64_of_int_geOne.
    apply Z.div_le_lower_bound; lia.
  - rewrite Z.div_small, float64_of_int_0 by lia.
    apply ltOne_fge, fadd_zero_ltOne, Q.
Qed.

Lemma binary_round_sign (s : bool) (m : positive) (e : Z) :
  match binary_round 53 1024 s m e with
  | S754_zero s' | S754_infinity s' | S754_finite s' _ _ => s' = s
  | S754_nan => False
  end.
Proof.
  unfold binary_round. change (Zpos (digits2_pos m)) with (Zdigits2 (Zpos m)).
  destruct (shl_align_spec m e (fexp 53 1024 (Zdigits2 (Zpos m) + e))) as (m' & -> & _).
  apply round_sign. lia.
Qed.

Lemma signed_notPositive (x : spec_float) :
  match x with
  | S754_zero s' | S754_infinity s' | S754_finite s' _ _ => s' = true
  | S754_nan => False
  end -> notPositive x.
Proof. destruct x as [ | [ | ] | | [ | ] m e]; cbn [notPositive]; auto; discriminate. Qed.

Lemma float64_of_int_notPositive (z : Z) : z <= 0 -> notPositive (float64_of_int z).
Proof.
  intro H. destruct z as [ | p | p]; try lia; [exact I | ].
  unfold float64_of_int, binary_normalize. apply signed_notPositive, binary_round_sign.
Qed.

Lemma fdiv_notPositive (x : spec_float) (U : Z) :
  0 < U < 2 ^ 53 -> notPositive x -> notPositive (fdiv x (float64_of_int U)).
Proof.
  intros HU Hx. destruct (float64_of_int_exact U HU) as (m2 & e2 & -> & _).
  destruct x as [s | [ | ] | | [ | ] m1 e1]; cbn [notPositive] in Hx; try contradiction;
    try exact I.
  unfold fdiv, SFdiv, SFdiv_core_binary.
  match goal with |- context [Z.div_eucl ?a ?b] =>
    assert (A : 0 <= a); [ | destruct (Z.div_eucl a b) as [q r] eqn:Eq;
      assert (Q : q = a / b) by (unfold Z.div; now rewrite Eq) ] end.
  - match goal with |- context [match ?s with Z0 => _ | Zpos _ => _ | Zneg _ => _ end] =>
      destruct s eqn:Es end; try lia.
    rewrite Z.shiftl_mul_pow2 by lia.
    apply Z.mul_nonneg_nonneg; [lia | apply Z.pow_nonneg; lia].
  - cbn [xorb]. apply signed_notPositive, round_sign.
    rewrite Q. apply Z_div_nonneg_nonneg; lia.
Qed.

Lemma fadd_notPositive (x y : spec_float) :
  notPositive x -> notPositive y -> notPositive (fadd x y).
Proof.
  destruct x as [[ | ] | [ | ] | | [ | ] mx ex]; cbn [notPositive]; try contradiction;
    destruct y as [[ | ] | [ | ] | | [ | ] my ey]; cbn [notPositive]; try contradiction;
    intros _ _; try exact I.
  unfold fadd, SFadd. cbn [cond_Zopp].
  destruct (shl_align_spec mx ex (Z.min ex ey)) as (a & -> & _).
  destruct (shl_align_spec my ey (Z.min ex ey)) as (b & -> & _).
  cbn [fst]. change (- Zpos a + - Zpos b) with (Zneg (a + b)). cbn [binary_normalize].
  apply signed_notPositive, binary_round_sign.
Qed.

(** A duration that is not positive is below 1 in every unit. *)
Lemma inUnit_fge_nonpos (U d : Z) :
  0 < U < 2 ^ 53 -> d <= 0 ->
  fge (inUnit U d) (float64_of_int 1) = false.
Proof.
  intros HU Hd. unfold inUnit.
  apply notPositive_fge, fadd_notPositive.
  - apply float64_of_int_notPositive.
    replace d with (- - d) by lia. rewrite Z.quot_opp_l by lia.
    pose proof (Z.quot_pos (- d) U). lia.
  - apply fdiv_notPositive; [exact HU | ]. apply float64_of_int_notPositive.
    replace d with (- - d) by lia. rewrite Z.rem_opp_l by lia.
    pose proof (Z.rem_nonneg (- d) U). lia.
Qed.

Lemma dg_shiftr (m k : Z) (p : positive) :
  0 <= m -> 0 <= k -> m / 2 ^ k = Zpos p -> Zdigits2 (Zpos p) <= Zdigits2 m - k.
Proof.
  intros Hm Hk E. destruct m as [ | q | q]; try lia.
  - rewrite Z.div_0_l in E by (apply Z.pow_nonzero; lia). discriminate.
  - pose proof (dg_bounds q) as [_ U]. pose proof (dg_pos q).
    assert (P : 0 < 2 ^ k) by (apply Z.pow_pos_nonneg; lia).
    destruct (Z.le_gt_cases k (Zdigits2 (Zpos q))) as [G | G].
    + apply dg_le. rewrite <- E. apply Z.div_lt_upper_bound; [exact P | ].
      rewrite <- Z.pow_add_r by lia. now replace (k + (Zdigits2 (Zpos q) - k)) with (Zdigits2 (Zpos q)) by lia.
    + exfalso. assert (2 ^ Zdigits2 (Zpos q) <= 2 ^ k) by (apply Z.pow_le_mono_r; lia).
      rewrite Z.div_small in E by lia. discriminate.
Qed.

Lemma dg_succ_le (m m2 : Z) : 0 <= m -> 0 <= m2 <= m + 1 -> Zdigits2 m2 <= Zdigits2 m + 1.
Proof.
  intros Hm [H0 H1]. destruct m2 as [ | p2 | p2]; try lia.
  - destruct m as [ | p | p]; try lia. cbn [Zdigits2]. lia.
  - apply dg_le. destruct m as [ | p | p]; try lia.
    + change (Zdigits2 0 + 1) with 1. change (2 ^ 1) with 2. lia.
    + pose proof (dg_bounds p) as [_ U]. pose proof (dg_pos p).
      rewrite Z.pow_add_r by lia. change (2 ^ 1) with 2. lia.
Qed.

Lemma dg_div_le (m k : Z) : 0 <= m -> 0 <= k -> Zdigits2 (m / 2 ^ k) + k <= Z.max (Zdigits2 m) k.
Proof.
  intros Hm Hk. destruct (m / 2 ^ k) as [ | p | p] eqn:E.
  - change (Zdigits2 0) with 0. lia.
  - pose proof (dg_shiftr m k p Hm Hk E). lia.
  - assert (0 <= m / 2 ^ k) by (apply Z_div_nonneg_nonneg; [lia | apply Z.pow_nonneg; lia]). lia.
Qed.

(** Rounding does not overflow: the magnitude grows by one bit at most. *)
Lemma round_fits (s : bool) (m e : Z) (l : location) (A : Z) :
  0 <= m -> Zdigits2 m + e <= A -> e <= A -> -1074 <= A <= 971 ->
  fits (A + 1) (binary_round_aux 53 1024 s m e l).
Proof.
  intros Hm HD He HA.
  destruct (binary_round_aux_spec s m e l Hm) as (m2 & B & _ & ->).
  revert B. rewrite !fexp64_eq.
  set (e1 := Z.max e (Z.max (Zdigits2 m + e - 53) (-1074))). intro B.
  assert (K1 : 0 <= e1 - e) by lia.
  assert (M1 : 0 <= m / 2 ^ (e1 - e)) by (apply Z_div_nonneg_nonneg; [lia | apply Z.pow_nonneg; lia]).
  pose proof (dg_div_le m (e1 - e) Hm K1) as G1.
  assert (G2 : Zdigits2 m2 <= Zdigits2 (m / 2 ^ (e1 - e)) + 1) by (apply dg_succ_le; lia).
  set (e2 := Z.max e1 (Z.max (Zdigits2 m2 + e1 - 53) (-1074))).
  destruct (m2 / 2 ^ (e2 - e1)) as [ | p3 | p3] eqn:E3; [exact I | | ].
  - assert (G3 : Zdigits2 (Zpos p3) <= Zdigits2 m2 - (e2 - e1)) by (apply (dg_shiftr m2); lia).
    pose proof (dg_pos p3).
    replace (e2 <=? 971) with true by (symmetry; apply Z.leb_le; lia).
    cbn [fits]. lia.
  - assert (0 <= m2 / 2 ^ (e2 - e1)) by (apply Z_div_nonneg_nonneg; [lia | apply Z.pow_nonneg; lia]).
    lia.
Qed.

Lemma binary_round_fits (s : bool) (m : positive) (e A : Z) :
  Zdigits2 (Zpos m) + e <= A -> -1074 <= A <= 971 ->
  fits (A + 1) (binary_round 53 1024 s m e).
Proof.
  intros HD HA. unfold binary_round. change (Zpos (digits2_pos m)) with (Zdigits2 (Zpos m)).
  destruct (shl_align_spec m e (fexp 53 1024 (Zdigits2 (Zpos m) + e))) as (m' & -> & E).
  set (f := fexp 53 1024 (Zdigits2 (Zpos m) + e)) in *.
  assert (K : 0 <= e - Z.min e f) by lia.
  pose proof (dg_shift m m' _ K E) as D. pose proof (dg_pos m).
  apply round_fits; lia.
Qed.

Lemma fits_weaken (A B : Z) (x : spec_float) : A <= B -> fits A x -> fits B x.
Proof. intro H. destruct x; cbn [fits]; auto. lia. Qed.

Lemma float64_of_int_fits (z : Z) : - 2 ^ 64 < z < 2 ^ 64 -> fits 65 (float64_of_int z).
Proof.
  intros [L U]. unfold float64_of_int, binary_normalize.
  destruct z as [ | p | p]; [exact I | | ]; apply (binary_round_fits _ p 0 64); try lia;
    rewrite Z.add_0_r; apply dg_le; lia.
Qed.

Lemma dg_mono (a b : Z) : 0 <= a <= b -> Zdigits2 a <= Zdigits2 b.
Proof.
  intros [Ha Hab]. destruct a as [ | p | p]; try lia.
  - destruct b as [ | q | q]; try lia; cbn [Zdigits2]; lia.
  - destruct b as [ | q | q]; try lia. apply dg_le.
    pose proof (dg_bounds q) as [_ U]. lia.
Qed.

Lemma fdiv_fits (x : spec_float) (U A : Z) :
  0 < U < 2 ^ 53 -> fits A x -> -1000 <= A <= 900 ->
  fits (A + 54) (fdiv x (float64_of_int U)).
Proof.
  intros HU Hx HA. destruct (float64_of_int_exact U HU) as (m2 & e2 & -> & [L2 U2] & R2 & _).
  destruct x as [s | [ | ] | | s m1 e1]; cbn [fits] in Hx; try contradiction; [exact I | ].
  unfold fdiv, SFdiv, SFdiv_core_binary.
  change (Zdigits2 (Zpos m1)) with (Zdigits2 (Zpos m1)).
  change (Zdigits2 (Zpos m2)) with (Zdigits2 (Zpos m2)).
  pose proof (dg_pos m1) as D1.
  set (e' := Z.min (fexp 53 1024 (Zdigits2 (Zpos m1) + e1 - (Zdigits2 (Zpos m2) + e2))) (e1 - e2)).
  assert (S0 : 0 <= e1 - e2 - e') by lia.
  match goal with |- context [Z.div_eucl ?a ?b] =>
    assert (A0 : a = Zpos m1 * 2 ^ (e1 - e2 - e')); [ | rewrite A0 ] end.
  { destruct (e1 - e2 - e') as [ | k | k] eqn:Es; cbv beta iota.
    - change (2 ^ 0) with 1. lia.
    - apply Z.shiftl_mul_pow2. lia.
    - lia. }
  assert (P : 0 < 2 ^ (e1 - e2 - e')) by (apply Z.pow_pos_nonneg; lia).
  destruct (Z.div_eucl (Zpos m1 * 2 ^ (e1 - e2 - e')) (Zpos m2)) as [q r] eqn:Eq.
  assert (Q : q = Zpos m1 * 2 ^ (e1 - e2 - e') / Zpos m2) by (unfold Z.div; now rewrite Eq).
  assert (Q0 : 0 <= q) by (rewrite Q; apply Z_div_nonneg_nonneg; lia).
  assert (Q1 : q <= Zpos m1 * 2 ^ (e1 - e2 - e')).
  { rewrite Q. apply Z.div_le_upper_bound; [lia | ]. nia. }
  assert (DQ : Zdigits2 q <= Zdigits2 (Zpos m1) + (e1 - e2 - e')).
  { destruct (Zpos m1 * 2 ^ (e1 - e2 - e')) as [ | pm | pm] eqn:Em; try lia.
    rewrite <- (dg_shift m1 pm (e1 - e2 - e') S0) by (symmetry; exact Em).
    apply dg_mono. lia. }
  replace (A + 54) with (A + 53 + 1) by lia. apply round_fits; lia.
Qed.

Lemma fadd_fits (x y : spec_float) (A : Z) :
  fits A x -> fits A y -> -1074 <= A <= 900 -> fits (A + 2) (fadd x y).
Proof.
  intros Hx Hy HA.
  destruct x as [[ | ] | [ | ] | | sx mx ex]; cbn [fits] in Hx; try contradiction;
    destruct y as [[ | ] | [ | ] | | sy my ey]; cbn [fits] in Hy; try contradiction;
    try exact I; try (cbn [fadd SFadd fits]; lia).
  unfold fadd, SFadd.
  destruct (shl_align_spec mx ex (Z.min ex ey)) as (a & -> & Va).
  destruct (shl_align_spec my ey (Z.min ex ey)) as (b & -> & Vb).
  cbn [fst].
  replace (Z.min ex (Z.min ex ey)) with (Z.min ex ey) in Va by lia.
  replace (Z.min ey (Z.min ex ey)) with (Z.min ex ey) in Vb by lia.
  set (ez := Z.min ex ey) in *.
  assert (Ka : 0 <= ex - ez) by lia. assert (Kb : 0 <= ey - ez) by lia.
  pose proof (dg_shift mx a _ Ka Va) as Da. pose proof (dg_shift my b _ Kb Vb) as Db.
  pose proof (dg_bounds a) as [_ Ua]. pose proof (dg_bounds b) as [_ Ub].
  pose proof (dg_pos a). pose proof (dg_pos b).
  assert (Pa : 2 ^ Zdigits2 (Zpos a) <= 2 ^ (A - ez)) by (apply Z.pow_le_mono_r; lia).
  assert (Pb : 2 ^ Zdigits2 (Zpos b) <= 2 ^ (A - ez)) by (apply Z.pow_le_mono_r; lia).
  assert (S : 2 ^ (A + 1 - ez) = 2 * 2 ^ (A - ez)).
  { replace (A + 1 - ez) with (1 + (A - ez)) by lia. rewrite Z.pow_add_r by lia. reflexivity. }
  assert (M : forall p, Zpos p <= Zpos a + Zpos b -> Zdigits2 (Zpos p) + ez <= A + 1).
  { intros p Hp. assert (Zdigits2 (Zpos p) <= A + 1 - ez); [apply dg_le; lia | lia]. }
  destruct (cond_Zopp sx (Zpos a) + cond_Zopp sy (Zpos b)) as [ | p | p] eqn:E;
    cbn [binary_normalize]; [exact I | | ];
    replace (A + 2) with (A + 1 + 1) by lia; apply binary_round_fits; try lia; apply M;
    destruct sx, sy; cbn [cond_Zopp] in E; lia.
Qed.

Lemma inUnit_fits (U d : Z) :
  0 < U < 2 ^ 53 -> - 2 ^ 63 <= d < 2 ^ 63 -> fits 121 (inUnit U d).
Proof.
  intros HU Hd. unfold inUnit.
  assert (B : 2 ^ 63 < 2 ^ 64) by (apply Z.pow_lt_mono_r; lia).
  assert (C : 2 ^ 53 < 2 ^ 64) by (apply Z.pow_lt_mono_r; lia).
  pose proof (Z.quot_rem' d U) as E.
  assert (R : Z.abs (Z.rem d U) < U) by (pose proof (Z.rem_bound_abs d U); lia).
  assert (Q : Z.abs (Z.quot d U) <= Z.abs d).
  { destruct (Z.le_gt_cases 0 d) as [G | G].
    - pose proof (Z.quot_pos d U G). pose proof (Z.rem_nonneg d U). nia.
    - pose proof (Z.quot_opp_l (- d) U). pose proof (Z.quot_pos (- d) U).
      pose proof (Z.rem_opp_l (- d) U). pose proof (Z.rem_nonneg (- d) U).
      rewrite Z.opp_involutive in *. nia. }
  replace 121 with (119 + 2) by lia. apply fadd_fits; try lia.
  - apply (fits_weaken 65); [lia | ]. apply float64_of_int_fits. lia.
  - replace 119 with (65 + 54) by lia. apply fdiv_fits; try lia.
    apply float64_of_int_fits. lia.
Qed.

Lemma tenths_nonneg (m : positive) (e : Z) : 0 <= fmt.tenths m e.
Proof.
  unfold fmt.tenths. destruct e as [ | p | p].
  - change (2 ^ 0) with 1. lia.
  - assert (0 <= 2 ^ Zpos p) by (apply Z.pow_nonneg; lia). nia.
  - assert (0 <= Zpos m * 10 / Zpos (Pos.shiftl 1 (Npos p)))
      by (apply Z_div_nonneg_nonneg; lia).
    destruct (2 * ((Zpos m * 10) mod Zpos (Pos.shiftl 1 (Npos p)))
              ?= Zpos (Pos.shiftl 1 (Npos p))); try lia.
    destruct (Z.even _); lia.
Qed.

(** [%.1f] of a zero or finite float has one decimal place. *)
Lemma Sprintf_1f_oneDecimal (A : Z) (x : spec_float) :
  fits A x -> oneDecimal (fmt.Sprintf_1f x).
Proof.
  destruct x as [s | [ | ] | | s m e]; cbn [fits]; try contradiction; intros _.
  - exists (if s then "-" else "")%string, 0, 0.
    split; [destruct s; auto | ]. split; [lia | ]. split; [lia | ]. destruct s; reflexivity.
  - pose proof (tenths_nonneg m e) as T. unfold fmt.Sprintf_1f.
    exists (if s then "-" else "")%string, (fmt.tenths m e / 10), (fmt.tenths m e mod 10).
    split; [destruct s; auto | ].
    split; [apply Z_div_nonneg_nonneg; lia | ].
    split; [pose proof (Z.mod_pos_bound (fmt.tenths m e) 10); lia | reflexivity].
Qed.

Lemma inUnit_fge (U d : Z) :
  0 < U <= 2 ^ 52 -> fge (inUnit U d) (float64_of_int 1) = (U <=? d).
Proof.
  intro HU. destruct (Z.lt_ge_cases 0 d) as [G | G].
  - now apply inUnit_fge_pos.
  - assert (B53 : 2 ^ 52 < 2 ^ 53) by (apply Z.pow_lt_mono_r; lia).
    rewrite inUnit_fge_nonpos by lia. symmetry. apply Z.leb_gt. lia.
Qed.

Lemma Hours_inUnit (d : Z) : Hours d = inUnit 3600000000000 d.
Proof. reflexivity. Qed.

Lemma Minutes_inUnit (d : Z) : Minutes d = inUnit 60000000000 d.
Proof. reflexivity. Qed.

Lemma Seconds_inUnit (d : Z) : Seconds d = inUnit 1000000000 d.
Proof. reflexivity. Qed.

Lemma wrap64_range (z : Z) : - 2 ^ 63 <= wrap64 z < 2 ^ 63.
Proof.
  unfold wrap64. pose proof (Z.mod_pos_bound (z + 2 ^ 63) (2 ^ 64)).
  change (2 ^ 64) with (2 * 2 ^ 63) in *. lia.
Qed.

Lemma wrap64_small (z : Z) : - 2 ^ 63 <= z < 2 ^ 63 -> wrap64 z = z.
Proof.
  intro H. unfold wrap64. rewrite Z.mod_small; [lia | ].
  change (2 ^ 64) with (2 * 2 ^ 63). lia.
Qed.

(** The three tests of [formatDuration] on floats are tests on the
    nanoseconds; this holds for every [int64] count, wrapped or not. *)
Lemma formatDuration_branches (ms : Z) :
  ms <> 0 ->
  Nested.formatDuration ms =
  (if 3600000000000 <=? wrap64 (ms * 1000000)
   then fmt.Sprintf_1f (Hours (wrap64 (ms * 1000000))) ++ "h"
   else if 60000000000 <=? wrap64 (ms * 1000000)
   then fmt.Sprintf_1f (Minutes (wrap64 (ms * 1000000))) ++ "m"
   else fmt.Sprintf_1f (Seconds (wrap64 (ms * 1000000))) ++ "s").
Proof.
  intro H. unfold Nested.formatDuration.
  replace (ms =? 0) with false by (symmetry; apply Z.eqb_neq; exact H).
  change Millisecond with 1000000.
  rewrite Hours_inUnit, Minutes_inUnit, !inUnit_fge; [reflexivity | | ];
    (split; [lia | ]); apply Z.lt_le_incl;
    (apply Z.lt_le_trans with (2 ^ 42); [reflexivity | apply Z.pow_le_mono_r; lia]).
Qed.

Lemma unit_oneDecimal (U d : Z) :
  0 < U <= 2 ^ 52 -> - 2 ^ 63 <= d < 2 ^ 63 -> oneDecimal (fmt.Sprintf_1f (inUnit U d)).
Proof.
  intros HU Hd. apply (Sprintf_1f_oneDecimal 121), inUnit_fits; [ | exact Hd].
  assert (2 ^ 52 < 2 ^ 53) by (apply Z.pow_lt_mono_r; lia). lia.
Qed.

Lemma lastByte_app (x : string) (c : ascii) :
  lastByte (x ++ String c "") = Some c.
Proof.
  induction x as [ | a x IH]; [reflexivity | ].
  cbn [append lastByte]. rewrite IH. destruct x; reflexivity.
Qed.

End Float64.

(** * Duration formatting of the nested variant *)

Section Durations.

Import time.

(** C6, as it holds.  Zero gives "N/A".  A positive count of
    milliseconds whose nanoseconds fit [int64] is rendered in one unit:
    hours from 3600000 ms on, minutes from 60000 ms on, seconds below,
    each time the [float64] value of that unit through [%.1f], which
    gives one decimal place, and the suffix of the unit. *)
Theorem formatDuration_units (ms : Z) :
  Nested.formatDuration 0 = "N/A"
  /\ (0 < ms <= maxMillis ->
      Nested.formatDuration ms =
        (if 3600000 <=? ms then fmt.Sprintf_1f (Hours (ms * 1000000)) ++ "h"
         else if 60000 <=? ms then fmt.Sprintf_1f (Minutes (ms * 1000000)) ++ "m"
         else fmt.Sprintf_1f (Seconds (ms * 1000000)) ++ "s")
      /\ oneDecimal (fmt.Sprintf_1f (Hours (ms * 1000000)))
      /\ oneDecimal (fmt.Sprintf_1f (Minutes (ms * 1000000)))
      /\ oneDecimal (fmt.Sprintf_1f (Seconds (ms * 1000000))))
  /\ Nested.formatDuration 90000 = "1.5m"
  /\ Nested.formatDuration 3600000 = "1.0h"
  /\ Nested.formatDuration 5000 = "5.0s".
Proof.
  split; [reflexivity | ].
  split; [ | split; [ | split]; vm_compute; reflexivity].
  unfold maxMillis. intros [H0 H1].
  assert (R : - 2 ^ 63 <= ms * 1000000 < 2 ^ 63).
  { change (2 ^ 63) with 9223372036854775808. lia. }
  assert (P : 2 ^ 42 <= 2 ^ 52) by (apply Z.pow_le_mono_r; lia).
  change (2 ^ 42) with 4398046511104 in P.
  split.
  - rewrite formatDuration_branches by lia. rewrite (wrap64_small _ R).
    replace (3600000000000 <=? ms * 1000000) with (3600000 <=? ms)
      by (destruct (Z.leb_spec 3600000 ms); symmetry; [apply Z.leb_le | apply Z.leb_gt]; lia).
    replace (60000000000 <=? ms * 1000000) with (60000 <=? ms)
      by (destruct (Z.leb_spec 60000 ms); symmetry; [apply Z.leb_le | apply Z.leb_gt]; lia).
    reflexivity.
  - rewrite Hours_inUnit, Minutes_inUnit, Seconds_inUnit.
    repeat split; apply unit_oneDecimal; try exact R; lia.
Qed.

Lemma formatDuration_units_witness :
  Nested.formatDuration 125000 = fmt.Sprintf_1f (Minutes 125000000000) ++ "m"
  /\ Nested.formatDuration 125000 = "2.1m".
Proof.
  split.
  - apply (proj1 (proj2 (formatDuration_units 125000))). unfold maxMillis. lia.
  - vm_compute. reflexivity.
Defined.

(** C6 as stated fails where the product with [time.Millisecond]
    leaves [int64]: 9223372036855 ms is far above one hour, yet the
    wrapped duration is negative and goes to the seconds branch. *)
Lemma formatDuration_overflow_counterexample :
  0 < maxMillis + 1
  /\ 3600000 <= maxMillis + 1
  /\ wrap64 ((maxMillis + 1) * Millisecond) = -9223372036854551616
  /\ Nested.formatDuration (maxMillis + 1) = "-9223372036.9s"
  /\ Nested.formatDuration (maxMillis + 1)
     <> fmt.Sprintf_1f (Hours ((maxMillis + 1) * 1000000)) ++ "h".
Proof.
  split; [reflexivity | ]. split; [discriminate | ].
  split; [vm_compute; reflexivity | ]. split; [vm_compute; reflexivity | ].
  vm_compute. discriminate.
Qed.

(** C10, as it holds.  A negative count of milliseconds whose
    nanoseconds fit [int64] never gives "N/A" and never takes the hours
    or the minutes branch: it is rendered in seconds, the [float64]
    value through [%.1f] with one decimal place, and the suffix "s". *)
Theorem formatDuration_negative (ms : Z) :
  (- maxMillis <= ms < 0 ->
   Nested.formatDuration ms = fmt.Sprintf_1f (Seconds (ms * 1000000)) ++ "s"
   /\ oneDecimal (fmt.Sprintf_1f (Seconds (ms * 1000000)))
   /\ Nested.formatDuration ms <> "N/A")
  /\ Nested.formatDuration (-5000) = "-5.0s".
Proof.
  split; [ | vm_compute; reflexivity].
  unfold maxMillis. intros [H0 H1].
  assert (R : - 2 ^ 63 <= ms * 1000000 < 2 ^ 63).
  { change (2 ^ 63) with 9223372036854775808. lia. }
  assert (P : 2 ^ 42 <= 2 ^ 52) by (apply Z.pow_le_mono_r; lia).
  change (2 ^ 42) with 4398046511104 in P.
  assert (E : Nested.formatDuration ms = fmt.Sprintf_1f (Seconds (ms * 1000000)) ++ "s").
  { rewrite formatDuration_branches by lia. rewrite (wrap64_small _ R).
    replace (3600000000000 <=? ms * 1000000) with false by (symmetry; apply Z.leb_gt; lia).
    replace (60000000000 <=? ms * 1000000) with false by (symmetry; apply Z.leb_gt; lia).
    reflexivity. }
  split; [exact E | ]. split.
  - rewrite Seconds_inUnit. apply unit_oneDecimal; [lia | exact R].
  - rewrite E. intro N. apply (f_equal lastByte) in N.
    rewrite lastByte_app in N. discriminate N.
Qed.

Lemma formatDuration_negative_witness :
  Nested.formatDuration (-40) = fmt.Sprintf_1f (Seconds (-40000000)) ++ "s"
  /\ Nested.formatDuration (-40) <> "N/A".
Proof.
  assert (H : - maxMillis <= -40 < 0) by (unfold maxMillis; lia).
  split.
  - exact (proj1 (proj1 (formatDuration_negative (-40)) H)).
  - exact (proj2 (proj2 (proj1 (formatDuration_negative (-40)) H))).
Defined.

(** C10 as stated fails where the product with [time.Millisecond]
    leaves [int64]: -9223372036855 ms wraps to a positive duration of
    more than an hour and is rendered in hours. *)
Lemma formatDuration_negative_overflow_counterexample :
  - maxMillis - 1 < 0
  /\ wrap64 ((- maxMillis - 1) * Millisecond) = 9223372036854551616
  /\ Nested.formatDuration (- maxMillis - 1) = "2562047.8h"
  /\ Nested.formatDuration (- maxMillis - 1)
     <> fmt.Sprintf_1f (Seconds ((- maxMillis - 1) * 1000000)) ++ "s".
Proof.
  split; [reflexivity | ].
  split; [vm_compute; reflexivity | ]. split; [vm_compute; reflexivity | ].
  vm_compute. discriminate.
Qed.

End Durations.

(** * The documented sample, end to end *)

Section Examples.

(** The README payload (result SUCCESS, duration 125000, number 42) in
    a process whose zone is UTC: a green card with Duration "2.1m" and
    Build Number "#42". *)
Example sample_payload_card :
  Nested.convertToDiscordPayload samplePayload epochUTC =
  {| Content := "";
     Embeds :=
       [ {| Title := "My Project - Build #42";
            Description := "My Project #42";
            URL := "http://jenkins.example.com/job/my-project/42/";
            Color := 0x00FF00;
            Fields :=
              [ {| Name := "Build Number"; Value := "#42"; Inline := true |};
                {| Name := "Status"; Value := "✅ Success"; Inline := true |};
                {| Name := "Duration"; Value := "2.1m"; Inline := true |};
                {| Name := "Phase"; Value := "COMPLETED"; Inline := true |};
                {| Name := "Cause"; Value := "Started by user admin"; Inline := false |} ];
            Timestamp := "2022-01-19T09:20:00Z";
            Footer := Some {| Text := "Jenkins CI/CD" |} |} ] |}.
Proof. vm_compute. reflexivity. Qed.

Example sample_flat_card :
  Flat.convertToDiscordPayload sampleFlat epochUTC =
  {| Content := "";
     Embeds :=
       [ {| Title := "my-project - build-42";
            Description := "Build success";
            URL := "http://jenkins.example.com/job/my-project/42/";
            Color := 0x00FF00;
            Fields :=
              [ {| Name := "Build"; Value := "build-42"; Inline := true |};
                {| Name := "Status"; Value := "✅ Success"; Inline := true |};
                {| Name := "Project"; Value := "my-project"; Inline := true |};
                {| Name := "Build Variables";
                   Value := "**a**: 1" ++ Flat.LF ++ "**b**: 2"; Inline := false |} ];
            Timestamp := "1970-01-01T00:00:00Z";
            Footer := Some {| Text := "Jenkins CI/CD" |} |} ] |}.
Proof. vm_compute. reflexivity. Qed.

(** Known renderings: a zone east and a zone west of UTC, a leap day,
    a year before the common era. *)
Example rfc3339_known :
  time.FormatRFC3339 (fun _ => 25200) (time.Unix 1700000000 0) = "2023-11-15T05:13:20+07:00"
  /\ time.FormatRFC3339 (fun _ => -12600) (time.Unix 951782400 0) = "2000-02-28T20:30:00-03:30"
  /\ time.FormatRFC3339 time.UTC (time.Unix 951782400 0) = "2000-02-29T00:00:00Z"
  /\ time.FormatRFC3339 time.UTC (time.Unix (-62198755200) 0) = "-0001-01-01T00:00:00Z".
Proof. repeat split; vm_compute; reflexivity. Qed.

(** Keys and values are trimmed, and a value keeps its own "=". *)
Example formatBuildVars_trims_entries :
  Flat.formatBuildVars "{k = v=w ,  x=}" = "**k**: v=w" ++ Flat.LF ++ "**x**: ".
Proof. vm_compute. reflexivity. Qed.

(** [%.1f] rounds the binary value, ties to even: 50 ms is the float
    above 0.05, 250 ms is 0.25 exactly. *)
Example formatDuration_rounding :
  Nested.formatDuration 50 = "0.1s" /\ Nested.formatDuration 250 = "0.2s"
  /\ Nested.formatDuration 3599999 = "60.0m".
Proof. repeat split; vm_compute; reflexivity. Qed.

End Examples.

(** * Further properties of the flat variant, of durations and of start-up *)

Section FlatEvents.

Lemma flat_known_event (e : string) :
  In e knownEvents -> Flat.getEventText e <> e /\ Flat.getEventColor e <> 0.
Proof.
  unfold knownEvents. cbn [In].
  intros [<- | [<- | [<- | [<- | [<- | [<- | []]]]]]]; split; vm_compute; discriminate.
Qed.

Lemma flat_unknown_event (e : string) :
  ~ In e knownEvents -> Flat.getEventText e = e /\ Flat.getEventColor e = 0x808080.
Proof.
  unfold knownEvents. cbn [In]. intro H.
  unfold Flat.getEventText, Flat.getEventColor.
  destruct (String.eqb_spec e "success"); [exfalso; apply H; subst e; auto 10 | ].
  destruct (String.eqb_spec e "failure"); [exfalso; apply H; subst e; auto 10 | ].
  destruct (String.eqb_spec e "failed"); [exfalso; apply H; subst e; auto 10 | ].
  destruct (String.eqb_spec e "unstable"); [exfalso; apply H; subst e; auto 10 | ].
  destruct (String.eqb_spec e "aborted"); [exfalso; apply H; subst e; auto 10 | ].
  destruct (String.eqb_spec e "started"); [exfalso; apply H; subst e; auto 10 | ].
  split; reflexivity.
Qed.

Lemma flat_color_palette (e : string) : In (Flat.getEventColor e) palette.
Proof.
  unfold Flat.getEventColor, palette.
  destruct (e == "success"); [cbn [In]; auto 10 | ].
  destruct ((e == "failure") || (e == "failed")); [cbn [In]; auto 10 | ].
  destruct (e == "unstable"); [cbn [In]; auto 10 | ].
  destruct (e == "aborted"); [cbn [In]; auto 10 | ].
  destruct (e == "started"); cbn [In]; auto 10.
Qed.

(** X1.  In the flat variant the label is the raw event exactly when
    the event is none of the six known names, and such an event is
    gray; every colour is one of the five of the palette; "failed" and
    "failure" are one class. *)
Theorem flat_event_passthrough (e : string) :
  (Flat.getEventText e = e <-> ~ In e knownEvents)
  /\ (~ In e knownEvents -> Flat.getEventColor e = 0x808080)
  /\ In (Flat.getEventColor e) palette
  /\ Flat.getEventText "failed" = Flat.getEventText "failure"
  /\ Flat.getEventColor "failed" = Flat.getEventColor "failure".
Proof.
  split; [ | split; [ | split; [ | split; reflexivity]]].
  - split.
    + intros H K. exact (proj1 (flat_known_event e K) H).
    + intro H. exact (proj1 (flat_unknown_event e H)).
  - intro H. exact (proj2 (flat_unknown_event e H)).
  - apply flat_color_palette.
Qed.

Lemma flat_event_passthrough_witness :
  Flat.getEventText "SUCCESS" = "SUCCESS" /\ Flat.getEventColor "SUCCESS" = 0x808080.
Proof.
  assert (N : ~ In "SUCCESS" knownEvents).
  { unfold knownEvents. cbn [In]. intros [H | [H | [H | [H | [H | [H | []]]]]]]; discriminate H. }
  split.
  - exact (proj2 (proj1 (flat_event_passthrough "SUCCESS")) N).
  - exact (proj1 (proj2 (flat_event_passthrough "SUCCESS")) N).
Defined.

End FlatEvents.

Section NestedStatus.

Lemma nested_color_palette (r st : string) : In (Nested.getStatusColor r st) palette.
Proof.
  unfold Nested.getStatusColor, palette.
  destruct (r == "SUCCESS"); [cbn [In]; auto 10 | ].
  destruct (r == "FAILURE"); [cbn [In]; auto 10 | ].
  destruct (r == "UNSTABLE"); [cbn [In]; auto 10 | ].
  destruct (r == "ABORTED"); [cbn [In]; auto 10 | ].
  destruct (st == "STARTED"); [cbn [In]; auto 10 | ].
  destruct (st == "COMPLETED"); cbn [In]; auto 10.
Qed.

(** X2.  In the nested variant a result that is not empty and none of
    the four known codes is its own label, and its colour is the one
    the status alone would get. *)
Theorem nested_unknown_result_follows_status (r st : string) :
  r <> "" -> ~ In r knownResults ->
  Nested.getStatusText r st = r
  /\ Nested.getStatusColor r st = Nested.getStatusColor "" st.
Proof.
  unfold knownResults. cbn [In]. intros Hr H.
  unfold Nested.getStatusText, Nested.getStatusColor.
  destruct (String.eqb_spec r ""); [contradiction | ].
  destruct (String.eqb_spec r "SUCCESS"); [exfalso; apply H; subst r; auto 10 | ].
  destruct (String.eqb_spec r "FAILURE"); [exfalso; apply H; subst r; auto 10 | ].
  destruct (String.eqb_spec r "UNSTABLE"); [exfalso; apply H; subst r; auto 10 | ].
  destruct (String.eqb_spec r "ABORTED"); [exfalso; apply H; subst r; auto 10 | ].
  split; reflexivity.
Qed.

Lemma nested_unknown_result_follows_status_witness :
  Nested.getStatusText "NOT_BUILT" "COMPLETED" = "NOT_BUILT"
  /\ Nested.getStatusColor "NOT_BUILT" "COMPLETED" = Nested.getStatusColor "" "COMPLETED".
Proof.
  apply nested_unknown_result_follows_status; [discriminate | ].
  unfold knownResults. cbn [In]. intros [H | [H | [H | [H | []]]]]; discriminate H.
Defined.

End NestedStatus.


Section FlatCard.

Import strings.

Lemma Join_nil_iff (l : list string) (sep : string) :
  Forall (fun x => x <> "") l -> (Join l sep = "" <-> l = []).
Proof.
  intro H. split; [ | intros ->; reflexivity].
  destruct l as [ | x rest]; [reflexivity | ].
  inversion H as [ | ? ? Hx _]; subst. destruct x as [ | c x']; [congruence | ].
  destruct rest; discriminate.
Qed.

Lemma renderEntry_lines (e : string) : Forall (fun x => x <> "") (renderEntry e).
Proof.
  unfold renderEntry. destruct (cutFirst "=" e) as [[k v] | ]; constructor; [discriminate | constructor].
Qed.

Lemma renderEntry_nil_iff (e : string) : renderEntry e = [] <-> Contains e "=" = false.
Proof.
  unfold renderEntry, Contains. rewrite cutFirst_Index.
  destruct (Index e "="); split; intro H; try reflexivity; discriminate H.
Qed.

Lemma flat_map_renderEntry_nil_iff (entries : list string) :
  flat_map renderEntry entries = [] <-> existsb (fun e => Contains e "=") entries = false.
Proof.
  induction entries as [ | e entries IH]; [split; reflexivity | ].
  cbn [flat_map existsb]. rewrite orb_false_iff, <- IH, <- renderEntry_nil_iff.
  split.
  - intro H. apply app_eq_nil in H. exact H.
  - intros [-> ->]. reflexivity.
Qed.

Lemma flat_map_renderEntry_lines (entries : list string) :
  Forall (fun x => x <> "") (flat_map renderEntry entries).
Proof.
  induction entries as [ | e entries IH]; [constructor | ].
  cbn [flat_map]. apply Forall_app. split; [apply renderEntry_lines | exact IH].
Qed.

Lemma formatBuildVars_empty_existsb (raw : string) :
  Flat.formatBuildVars raw = ""
  <-> existsb (fun e => Contains e "=") (Split (Trim raw "{}") ", ") = false.
Proof.
  rewrite formatBuildVars_renderEntries. unfold renderEntries.
  rewrite Join_nil_iff by apply flat_map_renderEntry_lines.
  apply flat_map_renderEntry_nil_iff.
Qed.

(** X4.  [formatBuildVars] gives the empty string exactly when no entry
    of the trimmed string, split on ", ", holds a "=": a raw string
    that is not empty can still give nothing. *)
Theorem formatBuildVars_empty_iff (raw : string) :
  Flat.formatBuildVars raw = ""
  <-> existsb (fun e => Contains e "=") (Split (Trim raw "{}") ", ") = false.
Proof. apply formatBuildVars_empty_existsb. Qed.

(** X3.  The flat conversion yields one card: title, description, link,
    colour and footer from the event, the clock reading as timestamp,
    the three inline fields Build, Status and Project in this order,
    and after them the field Build Variables, not inline, exactly when
    some entry of the build variables holds a "=". *)
Theorem flat_card_assembly (jenkins : Flat.JenkinsWebhook) (w : World) :
  exists card : DiscordEmbed,
    Flat.convertToDiscordPayload jenkins w = {| Content := ""; Embeds := [card] |}
    /\ Title card = Flat.ProjectName jenkins ++ " - " ++ Flat.BuildName jenkins
    /\ Description card = "Build " ++ Flat.Event jenkins
    /\ URL card = Flat.BuildUrl jenkins
    /\ Color card = Flat.getEventColor (Flat.Event jenkins)
    /\ Timestamp card = time.FormatRFC3339 (Local w) (clock w)
    /\ Footer card = Some {| Text := "Jenkins CI/CD" |}
    /\ firstn 3 (Fields card) =
         [ {| Name := "Build"; Value := Flat.BuildName jenkins; Inline := true |};
           {| Name := "Status"; Value := Flat.getEventText (Flat.Event jenkins);
              Inline := true |};
           {| Name := "Project"; Value := Flat.ProjectName jenkins; Inline := true |} ]
    /\ skipn 3 (Fields card) =
         (if existsb (fun e => Contains e "=")
                     (Split (Trim (Flat.BuildVars jenkins) "{}") ", ")
          then [ {| Name := "Build Variables";
                    Value := Flat.formatBuildVars (Flat.BuildVars jenkins);
                    Inline := false |} ]
          else []).
Proof.
  unfold Flat.convertToDiscordPayload, bind, ret, Now, Format_RFC3339.
  eexists. split; [reflexivity | ].
  cbn [Title Description URL Color Timestamp Footer Fields].
  do 6 (split; [reflexivity | ]).
  pose proof (formatBuildVars_empty_existsb (Flat.BuildVars jenkins)) as E.
  destruct (existsb _ _).
  - destruct (String.eqb_spec (Flat.formatBuildVars (Flat.BuildVars jenkins)) "") as [Z | _].
    + apply E in Z. discriminate Z.
    + split; reflexivity.
  - rewrite (proj2 E eq_refl). split; reflexivity.
Qed.

End FlatCard.

Section MoreDurations.

Import time.

Lemma suffix_not_NA (x : string) (c : ascii) : c <> "A"%char -> x ++ String c "" <> "N/A".
Proof.
  intros Hc N. apply (f_equal lastByte) in N. rewrite lastByte_app in N.
  injection N as N. contradiction.
Qed.

(** X6.  Only zero gives "N/A"; every other count of milliseconds,
    also one whose nanoseconds leave [int64], is rendered as a number
    with one decimal place followed by "h", "m" or "s". *)
Theorem formatDuration_total (ms : Z) :
  (Nested.formatDuration ms = "N/A" <-> ms = 0)
  /\ (ms <> 0 ->
      exists x u, oneDecimal x /\ In u ["h"; "m"; "s"]
                  /\ Nested.formatDuration ms = x ++ u).
Proof.
  assert (P : 0 < 4398046511104 <= 2 ^ 52).
  { split; [lia | ]. change 4398046511104 with (2 ^ 42). apply Z.pow_le_mono_r; lia. }
  assert (T : ms <> 0 ->
              exists x u, oneDecimal x /\ In u ["h"; "m"; "s"]
                          /\ Nested.formatDuration ms = x ++ u).
  { intro H. rewrite formatDuration_branches by exact H.
    pose proof (wrap64_range (ms * 1000000)) as R.
    rewrite Hours_inUnit, Minutes_inUnit, Seconds_inUnit.
    destruct (3600000000000 <=? wrap64 (ms * 1000000));
      [ | destruct (60000000000 <=? wrap64 (ms * 1000000))];
      eexists; eexists; (split; [ | split; [ | reflexivity]]);
      try (apply unit_oneDecimal; [lia | exact R]); cbn [In]; auto. }
  split; [ | exact T]. split.
  - intro N. destruct (Z.eq_dec ms 0) as [ | D]; [assumption | exfalso].
    destruct (T D) as (x & u & _ & Hu & E). rewrite E in N. cbn [In] in Hu.
    destruct Hu as [<- | [<- | [<- | []]]]; revert N; apply suffix_not_NA; discriminate.
  - intros ->. reflexivity.
Qed.

Lemma formatDuration_total_witness :
  exists x u, oneDecimal x /\ In u ["h"; "m"; "s"]
              /\ Nested.formatDuration (-9223372036855) = x ++ u.
Proof. apply (proj2 (formatDuration_total (-9223372036855))). discriminate. Defined.

Lemma shiftl_1_pow (p : positive) : Zpos (Pos.shiftl 1 (Npos p)) = 2 ^ Zpos p.
Proof. cbn [Pos.shiftl]. rewrite pos_iter_xO. lia. Qed.

(** [%.1f] of the float of an integer is the integer and ".0". *)
Lemma Sprintf_1f_integer (k : Z) :
  0 < k < 2 ^ 53 -> fmt.Sprintf_1f (float64_of_int k) = fmt.FormatInt k ++ ".0".
Proof.
  intro H. destruct (float64_of_int_exact k H) as (m & e & -> & _ & [E0 E1] & V).
  assert (T : fmt.tenths m e = k * 10).
  { unfold fmt.tenths. destruct e as [ | p | p]; cbv beta iota zeta.
    - change (- 0) with 0 in V. change (2 ^ 0) with 1 in *. lia.
    - lia.
    - change (- Zneg p) with (Zpos p) in V. rewrite shiftl_1_pow, V.
      assert (Q : 0 < 2 ^ Zpos p) by (apply Z.pow_pos_nonneg; lia).
      replace (k * 2 ^ Zpos p * 10) with (k * 10 * 2 ^ Zpos p) by ring.
      rewrite Z.div_mul, Z.mod_mul by lia.
      replace (2 * 0 ?= 2 ^ Zpos p) with Lt by (symmetry; apply Z.compare_lt_iff; lia).
      reflexivity. }
  unfold fmt.Sprintf_1f. rewrite T, Z.div_mul, Z.mod_mul by lia. reflexivity.
Qed.

Lemma inUnit_whole (U k : Z) :
  0 < U < 2 ^ 53 -> 0 < k < 2 ^ 53 -> inUnit U (k * U) = float64_of_int k.
Proof.
  intros HU Hk. unfold inUnit. rewrite Z.quot_mul, Z.rem_mul by lia.
  rewrite float64_of_int_0, fdiv_zero by exact HU.
  destruct (float64_of_int_exact k Hk) as (m & e & -> & _). reflexivity.
Qed.

(** X7.  A whole number of seconds or of minutes below 60, and a whole
    number of hours, is rendered as that number, ".0" and the unit. *)
Theorem formatDuration_whole_units (k : Z) :
  (1 <= k < 60 -> Nested.formatDuration (k * 1000) = fmt.FormatInt k ++ ".0s")
  /\ (1 <= k < 60 -> Nested.formatDuration (k * 60000) = fmt.FormatInt k ++ ".0m")
  /\ (1 <= k <= 2562047 -> Nested.formatDuration (k * 3600000) = fmt.FormatInt k ++ ".0h").
Proof.
  assert (B : 2 ^ 42 <= 2 ^ 53) by (apply Z.pow_le_mono_r; lia).
  change (2 ^ 42) with 4398046511104 in B.
  assert (A : forall x y : string, (x ++ ".0") ++ y = x ++ "." ++ "0" ++ y).
  { intros x y. rewrite append_assoc. reflexivity. }
  repeat split; intro H.
  - rewrite formatDuration_branches by lia.
    rewrite wrap64_small by (change (2 ^ 63) with 9223372036854775808; lia).
    replace (3600000000000 <=? k * 1000 * 1000000) with false by (symmetry; apply Z.leb_gt; lia).
    replace (60000000000 <=? k * 1000 * 1000000) with false by (symmetry; apply Z.leb_gt; lia).
    rewrite Seconds_inUnit. replace (k * 1000 * 1000000) with (k * 1000000000) by ring.
    rewrite inUnit_whole, Sprintf_1f_integer by lia. apply A.
  - rewrite formatDuration_branches by lia.
    rewrite wrap64_small by (change (2 ^ 63) with 9223372036854775808; lia).
    replace (3600000000000 <=? k * 60000 * 1000000) with false by (symmetry; apply Z.leb_gt; lia).
    replace (60000000000 <=? k * 60000 * 1000000) with true by (symmetry; apply Z.leb_le; lia).
    rewrite Minutes_inUnit. replace (k * 60000 * 1000000) with (k * 60000000000) by ring.
    rewrite inUnit_whole, Sprintf_1f_integer by lia. apply A.
  - rewrite formatDuration_branches by lia.
    rewrite wrap64_small by (change (2 ^ 63) with 9223372036854775808; lia).
    replace (3600000000000 <=? k * 3600000 * 1000000) with true by (symmetry; apply Z.leb_le; lia).
    rewrite Hours_inUnit. replace (k * 3600000 * 1000000) with (k * 3600000000000) by ring.
    rewrite inUnit_whole, Sprintf_1f_integer by lia. apply A.
Qed.

Lemma formatDuration_whole_units_witness :
  Nested.formatDuration 7000 = "7.0s" /\ Nested.formatDuration 720000 = "12.0m"
  /\ Nested.formatDuration 360000000 = "100.0h".
Proof.
  split; [ | split].
  - apply (proj1 (formatDuration_whole_units 7)). lia.
  - apply (proj1 (proj2 (formatDuration_whole_units 12))). lia.
  - apply (proj2 (proj2 (formatDuration_whole_units 100))). lia.
Defined.

End MoreDurations.

Section Ports.

Lemma digits_string_of_uint (d : Decimal.uint) (acc : Z) :
  strconv.digits (NilEmpty.string_of_uint d) acc = Some (uintValue d acc).
Proof.
  revert acc. induction d; intro acc; cbn [NilEmpty.string_of_uint strconv.digits uintValue];
    try reflexivity; apply IHd.
Qed.

Lemma uintValue_acc (d : Decimal.uint) (acc : positive) :
  uintValue d (Zpos acc) = Zpos (Pos.of_uint_acc d acc).
Proof.
  revert acc. induction d; intro acc; cbn [uintValue Pos.of_uint_acc]; try reflexivity;
    rewrite <- IHd; f_equal; lia.
Qed.

Lemma uintValue_0 (d : Decimal.uint) : uintValue d 0 = Z.of_N (N.of_uint d).
Proof.
  unfold N.of_uint. induction d; cbn [uintValue Pos.of_uint]; try reflexivity;
    try exact IHd; cbn [Z.of_N]; rewrite <- uintValue_acc; reflexivity.
Qed.

Lemma to_uint_cons (n : N) :
  exists c rest, NilZero.string_of_uint (N.to_uint n) = String c rest
                 /\ NilEmpty.string_of_uint (N.to_uint n) = String c rest
                 /\ Ascii.eqb c "-" = false /\ Ascii.eqb c "+" = false.
Proof.
  assert (H : N.to_uint n <> Decimal.Nil).
  { destruct n as [ | p]; [discriminate | apply DecimalPos.Unsigned.to_uint_nonnil]. }
  destruct (N.to_uint n); try congruence;
    cbn [NilZero.string_of_uint NilEmpty.string_of_uint]; eexists; eexists;
    repeat split; reflexivity.
Qed.

Lemma Atoi_reads_FormatInt (n : Z) :
  -9223372036854775808 <= n <= 9223372036854775807 ->
  strconv.Atoi (fmt.FormatInt n) = Some n.
Proof.
  intro R. unfold fmt.FormatInt.
  destruct (to_uint_cons (Z.abs_N n)) as (c & rest & E0 & E1 & Cm & Cp).
  assert (D : strconv.digits (String c rest) 0 = Some (Z.abs n)).
  { rewrite <- E1, digits_string_of_uint, uintValue_0, DecimalN.Unsigned.of_to.
    f_equal. apply N2Z.inj_abs_N. }
  rewrite E0. destruct (Z.ltb_spec n 0) as [L | L].
  - change ("-" ++ String c rest) with (String "-" (String c rest)).
    unfold strconv.Atoi. rewrite Ascii.eqb_refl, D.
    replace (- Z.abs n) with n by lia.
    replace (-9223372036854775808 <=? n) with true by (symmetry; apply Z.leb_le; lia).
    replace (n <=? 9223372036854775807) with true by (symmetry; apply Z.leb_le; lia).
    reflexivity.
  - unfold strconv.Atoi. rewrite Cm, Cp, D.
    replace (Z.abs n) with n by lia.
    replace (-9223372036854775808 <=? n) with true by (symmetry; apply Z.leb_le; lia).
    replace (n <=? 9223372036854775807) with true by (symmetry; apply Z.leb_le; lia).
    reflexivity.
Qed.

(** X14.  [Atoi] reads back what [%d] writes, for every [int]. *)
Theorem Atoi_FormatInt (n : Z) :
  -9223372036854775808 <= n <= 9223372036854775807 ->
  strconv.Atoi (fmt.FormatInt n) = Some n.
Proof. apply Atoi_reads_FormatInt. Qed.

Lemma Atoi_FormatInt_witness : strconv.Atoi (fmt.FormatInt (-8080)) = Some (-8080).
Proof. apply Atoi_FormatInt. lia. Defined.

End Ports.

Section Startup.

Lemma main_serve_event (getenv : string -> string) (Start : string -> option string)
    (h : WebhookHandler) (a : string) :
  let port := if getenv "PORT" == "" then "8080" else getenv "PORT" in
  (In (Serve h a) (fst (main getenv Start))
   <-> getenv "DISCORD_WEBHOOK_URL" <> ""
       /\ strconv.Atoi port <> None
       /\ h = NewWebhookHandler (getenv "DISCORD_WEBHOOK_URL") (getenv "JENKINS_URL")
       /\ a = ":" ++ port)
  /\ (getenv "DISCORD_WEBHOOK_URL" = "" ->
      main getenv Start = ([], Fatal "DISCORD_WEBHOOK_URL environment variable is required"))
  /\ (getenv "DISCORD_WEBHOOK_URL" <> "" -> strconv.Atoi port = None ->
      main getenv Start = ([], Fatal ("Invalid PORT value: " ++ port))).
Proof.
  intro port. unfold main. fold port.
  destruct (String.eqb_spec (getenv "DISCORD_WEBHOOK_URL") "") as [U | U].
  - split; [ | split; [reflexivity | contradiction]].
    cbn [fst In]. split; [contradiction | tauto].
  - split; [ | split; [contradiction | ]].
    + destruct (strconv.Atoi port) as [n | ] eqn:A.
      * assert (E : forall x, fst (match Start (":" ++ port) with
                                   | Some err => (x, Fatal ("Failed to start server: " ++ err))
                                   | None => (x, Return)
                                   end) = x :> list MainEvent)
          by (intro x; destruct (Start (":" ++ port)); reflexivity).
        rewrite E. cbn [In]. split.
        -- intros [H | [H | [H | [H | [H | []]]]]]; try discriminate H.
           injection H as <- <-. repeat split; [exact U | discriminate].
        -- intros (_ & _ & -> & ->). auto 10.
      * cbn [fst In]. split; [contradiction | ]. intros (_ & N & _). congruence.
    + intros _ A. rewrite A. reflexivity.
Qed.


(** X13.  [main] reaches [e.Start] exactly when the destination URL is
    set and the port string (or "8080" for none) passes [Atoi]; it then
    serves on ":" and that string.  A missing URL is fatal whatever the
    port; a port that [Atoi] refuses is fatal. *)
Theorem main_serves_iff (getenv : string -> string) (Start : string -> option string)
    (h : WebhookHandler) (a : string) :
  let port := if getenv "PORT" == "" then "8080" else getenv "PORT" in
  (In (Serve h a) (fst (main getenv Start))
   <-> getenv "DISCORD_WEBHOOK_URL" <> ""
       /\ strconv.Atoi port <> None
       /\ h = NewWebhookHandler (getenv "DISCORD_WEBHOOK_URL") (getenv "JENKINS_URL")
       /\ a = ":" ++ port)
  /\ (getenv "DISCORD_WEBHOOK_URL" = "" ->
      main getenv Start = ([], Fatal "DISCORD_WEBHOOK_URL environment variable is required"))
  /\ (getenv "DISCORD_WEBHOOK_URL" <> "" -> strconv.Atoi port = None ->
      main getenv Start = ([], Fatal ("Invalid PORT value: " ++ port))).
Proof. apply main_serve_event. Qed.

Lemma main_serves_iff_witness :
  main (fun k => if k == "DISCORD_WEBHOOK_URL" then "" else "80") (fun _ => None)
  = ([], Fatal "DISCORD_WEBHOOK_URL environment variable is required").
Proof.
  apply (proj1 (proj2 (main_serves_iff
                         (fun k => if k == "DISCORD_WEBHOOK_URL" then "" else "80")
                         (fun _ => None) (NewWebhookHandler "" "") ""))).
  reflexivity.
Defined.

(** X15.  The port check takes the decimal form of every [int],
    negative ones and ones above 65535 too: [e.Start] is then called
    with that address. *)
Theorem main_accepts_any_int (getenv : string -> string) (Start : string -> option string)
    (n : Z) :
  -9223372036854775808 <= n <= 9223372036854775807 ->
  getenv "DISCORD_WEBHOOK_URL" <> "" ->
  getenv "PORT" = fmt.FormatInt n ->
  In (Serve (NewWebhookHandler (getenv "DISCORD_WEBHOOK_URL") (getenv "JENKINS_URL"))
            (":" ++ fmt.FormatInt n))
     (fst (main getenv Start)).
Proof.
  intros R U P. apply main_serve_event. rewrite P.
  destruct (to_uint_cons (Z.abs_N n)) as (c & rest & E0 & _).
  assert (N : (fmt.FormatInt n == "") = false).
  { unfold fmt.FormatInt. rewrite E0. destruct (n <? 0); reflexivity. }
  rewrite N, (Atoi_reads_FormatInt n R). repeat split; [exact U | discriminate].
Qed.

Lemma main_accepts_any_int_witness :
  In (Serve (NewWebhookHandler "https://discord.example/hook" "") ":-1")
     (fst (main (fun k => if k == "DISCORD_WEBHOOK_URL" then "https://discord.example/hook"
                          else if k == "PORT" then "-1" else "")
                (fun _ => Some "listen tcp: address -1: invalid port"))).
Proof.
  apply (main_accepts_any_int
           (fun k => if k == "DISCORD_WEBHOOK_URL" then "https://discord.example/hook"
                     else if k == "PORT" then "-1" else "")
           (fun _ => Some "listen tcp: address -1: invalid port") (-1)).
  - lia.
  - discriminate.
  - reflexivity.
Defined.

End Startup.

Section BraceWrapping.

Import strings.

Lemma TrimRight_bracesOnly (q : string) : bracesOnly q = true -> TrimRight q "{}" = "".
Proof.
  induction q as [ | c q IH]; [reflexivity | ].
  cbn [bracesOnly TrimRight]. intro H. apply andb_true_iff in H as [Hc Hq].
  rewrite (IH Hq). fold (isBrace c). rewrite Hc. reflexivity.
Qed.

Lemma TrimRight_app_braces (s q : string) :
  bracesOnly q = true -> TrimRight (s ++ q) "{}" = TrimRight s "{}".
Proof.
  intro H. induction s as [ | c s IH]; [now apply TrimRight_bracesOnly | ].
  cbn [append TrimRight]. now rewrite IH.
Qed.

Lemma TrimLeft_app_braces (p t : string) :
  bracesOnly p = true -> TrimLeft (p ++ t) "{}" = TrimLeft t "{}".
Proof.
  induction p as [ | c p IH]; [reflexivity | ].
  cbn [bracesOnly append TrimLeft]. intro H. apply andb_true_iff in H as [Hc Hp].
  fold (isBrace c). rewrite Hc. now apply IH.
Qed.

Lemma TrimRight_braces_prefix (p s : string) :
  bracesOnly p = true ->
  TrimRight (p ++ s) "{}" =
  if TrimRight s "{}" == "" then "" else p ++ TrimRight s "{}".
Proof.
  induction p as [ | c p IH]; intro H.
  - cbn [append]. destruct (String.eqb_spec (TrimRight s "{}") ""); congruence.
  - cbn [bracesOnly] in H. apply andb_true_iff in H as [Hc Hp].
    cbn [append TrimRight]. rewrite (IH Hp). fold (isBrace c). rewrite Hc.
    destruct (String.eqb_spec (TrimRight s "{}") "") as [E | E]; [reflexivity | ].
    rewrite andb_true_r.
    destruct (String.eqb_spec (p ++ TrimRight s "{}") "") as [Z | Z]; [ | reflexivity].
    exfalso. destruct p; [exact (E Z) | discriminate Z].
Qed.

Lemma Trim_wrapped (p s q : string) :
  bracesOnly p = true -> bracesOnly q = true ->
  Trim (p ++ s ++ q) "{}" = Trim s "{}".
Proof.
  intros Hp Hq. unfold Trim.
  rewrite <- append_assoc, (TrimRight_app_braces _ q Hq), (TrimRight_braces_prefix p s Hp).
  destruct (String.eqb_spec (TrimRight s "{}") "") as [E | E].
  - rewrite E. reflexivity.
  - now apply TrimLeft_app_braces.
Qed.

(** X5.  Braces put in front of and behind the raw string, in any
    number and of either kind, do not change what [formatBuildVars]
    gives. *)
Theorem formatBuildVars_ignores_outer_braces (p s q : string) :
  bracesOnly p = true -> bracesOnly q = true ->
  Flat.formatBuildVars (p ++ s ++ q) = Flat.formatBuildVars s.
Proof.
  intros Hp Hq. rewrite !formatBuildVars_renderEntries. now rewrite Trim_wrapped.
Qed.

Lemma formatBuildVars_ignores_outer_braces_witness :
  Flat.formatBuildVars ("{{" ++ "a=1, b=2" ++ "}") = Flat.formatBuildVars "a=1, b=2".
Proof. apply formatBuildVars_ignores_outer_braces; reflexivity. Defined.

End BraceWrapping.

(** * Documents, delivery and the handlers *)

Section Documents.

Lemma append_nonempty_r (a b : string) : b <> "" -> (a ++ b == "") = false.
Proof.
  intro H. apply String.eqb_neq. destruct a; [exact H | discriminate].
Qed.

Lemma FormatRFC3339_nonempty (loc : time.Location) (t : time.Time) :
  (time.FormatRFC3339 loc t == "") = false.
Proof.
  unfold time.FormatRFC3339. destruct (time.civil _) as [[y m] d].
  apply append_nonempty_r. discriminate.
Qed.

Lemma palette_nonzero (c : Z) : In c palette -> (c =? 0) = false.
Proof.
  unfold palette. cbn [In]. intros [<- | [<- | [<- | [<- | [<- | []]]]]]; reflexivity.
Qed.

Lemma omitempty_present (k s : string) : (s == "") = false -> json.omitempty k s = [(k, json.Str s)].
Proof. intro H. unfold json.omitempty. now rewrite H. Qed.

(** X8.  The document of a nested conversion is an object with the one
    key "embeds" and one card.  The card always has title, colour,
    fields, timestamp and footer; description and url are there when
    not empty.  The four inline fields have the keys name, value and
    inline; the field Cause, when there, has name and value only. *)
Theorem nested_document_shape (jenkins : Nested.JenkinsWebhook) (w : World) :
  let b := Nested.Build jenkins in
  exists card fields,
    Marshal (Nested.convertToDiscordPayload jenkins w)
      = json.Object [("embeds", json.Array [card])]
    /\ json.keys card =
         (["title"]
          ++ (if Nested.Build.FullDisplayName b == "" then [] else ["description"])
          ++ (if Nested.Build.URL b == "" then [] else ["url"])
          ++ ["color"; "fields"; "timestamp"; "footer"])%list
    /\ json.get "fields" card = Some (json.Array fields)
    /\ map json.keys fields =
         (repeat ["name"; "value"; "inline"] 4
          ++ (if Nested.Build.Cause b == "" then [] else [["name"; "value"]]))%list.
Proof.
  intro b. unfold Nested.convertToDiscordPayload, bind, ret, Format_RFC3339, Marshal.
  fold b. cbn [Content Embeds map]. unfold json.omitempty at 1. cbn [String.eqb app].
  unfold marshalEmbed. cbn [Title Description URL Color Timestamp Footer Fields].
  rewrite (omitempty_present "title") by (apply append_nonempty_r; discriminate).
  rewrite (omitempty_present "timestamp") by apply FormatRFC3339_nonempty.
  rewrite (palette_nonzero _ (nested_color_palette _ _)).
  unfold json.omitempty.
  destruct (Nested.Build.Cause b == ""); cbn [negb app map];
    destruct (Nested.Build.FullDisplayName b == "");
    destruct (Nested.Build.URL b == "");
    eexists; eexists; (split; [reflexivity | ]);
    (split; [reflexivity | ]); (split; reflexivity).
Qed.

(** X9.  The document of a flat conversion is an object with the one
    key "embeds" and one card.  The card always has title, description,
    colour, fields, timestamp and footer; url is there when not empty.
    The three inline fields have the keys name, value and inline; the
    field Build Variables, when there, has name and value only. *)
Theorem flat_document_shape (jenkins : Flat.JenkinsWebhook) (w : World) :
  exists card fields,
    Marshal (Flat.convertToDiscordPayload jenkins w)
      = json.Object [("embeds", json.Array [card])]
    /\ json.keys card =
         (["title"; "description"]
          ++ (if Flat.BuildUrl jenkins == "" then [] else ["url"])
          ++ ["color"; "fields"; "timestamp"; "footer"])%list
    /\ json.get "fields" card = Some (json.Array fields)
    /\ map json.keys fields =
         (repeat ["name"; "value"; "inline"] 3
          ++ (if Flat.formatBuildVars (Flat.BuildVars jenkins) == "" then []
              else [["name"; "value"]]))%list.
Proof.
  unfold Flat.convertToDiscordPayload, bind, ret, Format_RFC3339, Now, Marshal.
  cbn [Content Embeds map]. unfold json.omitempty at 1. cbn [String.eqb app].
  unfold marshalEmbed. cbn [Title Description URL Color Timestamp Footer Fields].
  rewrite (omitempty_present "title") by (apply append_nonempty_r; discriminate).
  rewrite (omitempty_present "description") by reflexivity.
  rewrite (omitempty_present "timestamp") by apply FormatRFC3339_nonempty.
  rewrite (palette_nonzero _ (flat_color_palette _)).
  unfold json.omitempty.
  destruct (Flat.formatBuildVars (Flat.BuildVars jenkins) == ""); cbn [negb app map];
    destruct (Flat.BuildUrl jenkins == "");
    eexists; eexists; (split; [reflexivity | ]);
    (split; [reflexivity | ]); (split; reflexivity).
Qed.

End Documents.

Section Delivery.

Lemma requests_app (a b : list Event) : requests (a ++ b) = (requests a ++ requests b)%list.
Proof.
  induction a as [ | e a IH]; [reflexivity | ].
  destruct e; cbn [app requests]; rewrite IH; reflexivity.
Qed.

Lemma closings_app (a b : list Event) : closings (a ++ b) = (closings a + closings b)%nat.
Proof.
  induction a as [ | e a IH]; [reflexivity | ].
  destruct e; cbn [app closings]; rewrite IH; reflexivity.
Qed.

Lemma sendToDiscord_spec (o : Outside) (w : WebhookHandler) (payload : DiscordWebhook) :
  (snd (sendToDiscord o w payload) = None <-> delivered o w payload = true)
  /\ requests (fst (sendToDiscord o w payload)) =
       match urlError o (discordURL w) with
       | Some _ => []
       | None => [postTo w payload]
       end
  /\ closings (fst (sendToDiscord o w payload)) =
       match urlError o (discordURL w), roundTrip o (postTo w payload) with
       | None, http.Answered _ => 1%nat
       | _, _ => 0%nat
       end
  /\ (In (Logged "Successfully sent webhook to Discord") (fst (sendToDiscord o w payload))
      <-> delivered o w payload = true).
Proof.
  unfold sendToDiscord, delivered. fold (postTo w payload).
  destruct (urlError o (discordURL w)) as [e | ].
  - cbn [fst snd requests closings In]. repeat split; try discriminate; try contradiction.
  - destruct (roundTrip o (postTo w payload)) as [e | code].
    + cbn [fst snd requests closings In].
      repeat split; try discriminate; try tauto.
      intros [H | []]. discriminate H.
    + destruct (Z.ltb_spec code 200) as [L | L]; cbn [orb].
      * replace (200 <=? code) with false by (symmetry; apply Z.leb_gt; lia).
        cbn [fst snd requests closings In andb].
        repeat split; try discriminate; try tauto.
        intros [H | [H | []]]; discriminate H.
      * replace (200 <=? code) with true by (symmetry; apply Z.leb_le; lia).
        destruct (Z.leb_spec 300 code) as [G | G]; cbn [andb].
        -- replace (code <=? 299) with false by (symmetry; apply Z.leb_gt; lia).
           cbn [fst snd requests closings In].
           repeat split; try discriminate; try tauto.
           intros [H | [H | []]]; discriminate H.
        -- replace (code <=? 299) with true by (symmetry; apply Z.leb_le; lia).
           cbn [fst snd requests closings In]. repeat split; auto.
Qed.

(** X10.  [sendToDiscord] has no error exactly when the request could
    be built and was answered with a status from 200 to 299; it calls
    the destination once, or not at all when the request cannot be
    built; it closes the response body exactly when there was a
    response; it logs success exactly when there is no error. *)
Theorem sendToDiscord_outcome (o : Outside) (w : WebhookHandler) (payload : DiscordWebhook) :
  (snd (sendToDiscord o w payload) = None <-> delivered o w payload = true)
  /\ requests (fst (sendToDiscord o w payload)) =
       match urlError o (discordURL w) with
       | Some _ => []
       | None => [postTo w payload]
       end
  /\ closings (fst (sendToDiscord o w payload)) =
       match urlError o (discordURL w), roundTrip o (postTo w payload) with
       | None, http.Answered _ => 1%nat
       | _, _ => 0%nat
       end
  /\ (In (Logged "Successfully sent webhook to Discord") (fst (sendToDiscord o w payload))
      <-> delivered o w payload = true).
Proof. apply sendToDiscord_spec. Qed.

Lemma handler_tail (o : Outside) (w : WebhookHandler) (d : DiscordWebhook) (line : string) :
  let r :=
    let '(events, err) := sendToDiscord o w d in
    match err with
    | Some e => (Logged line :: events ++ [Logged ("Error sending to Discord: " ++ e)],
                 failedToSend)%list
    | None => (Logged line :: events, success)
    end in
  snd r = (if delivered o w d then success else failedToSend)
  /\ requests (fst r) = requests (fst (sendToDiscord o w d))
  /\ closings (fst r) = closings (fst (sendToDiscord o w d)).
Proof.
  destruct (sendToDiscord_spec o w d) as (S & _).
  destruct (sendToDiscord o w d) as [events [e | ]]; cbn [fst snd] in *.
  - destruct (delivered o w d); [destruct S as [_ S]; discriminate (S eq_refl) | ].
    split; [reflexivity | ]. cbn [requests closings]. rewrite requests_app, closings_app.
    cbn [requests closings]. rewrite app_nil_r, Nat.add_0_r. split; reflexivity.
  - rewrite (proj1 S eq_refl). repeat split; reflexivity.
Qed.

(** X11.  [HandleJenkinsWebhook] replies 400 "Invalid payload" when the
    body does not bind, 200 "success" when the converted payload is
    delivered, and 500 "Failed to send to Discord" otherwise; the reply
    carries none of the error text.  Both variants. *)
Theorem HandleJenkinsWebhook_reply (o : Outside) (w : WebhookHandler) (world : World) :
  (forall bound,
     snd (Nested_HandleJenkinsWebhook o w bound world) =
     match bound with
     | inl _ => invalidPayload
     | inr payload =>
         if delivered o w (Nested.convertToDiscordPayload payload world)
         then success else failedToSend
     end)
  /\ (forall bound,
        snd (Flat_HandleJenkinsWebhook o w bound world) =
        match bound with
        | inl _ => invalidPayload
        | inr payload =>
            if delivered o w (Flat.convertToDiscordPayload payload world)
            then success else failedToSend
        end).
Proof.
  split; intros [err | payload]; try reflexivity.
  - unfold Nested_HandleJenkinsWebhook, bind.
    set (d := Nested.convertToDiscordPayload payload world).
    match goal with |- context [Logged ?l :: _] =>
      destruct (handler_tail o w d l) as (R & _) end.
    destruct (sendToDiscord o w d) as [events [e | ]]; exact R.
  - unfold Flat_HandleJenkinsWebhook, bind.
    set (d := Flat.convertToDiscordPayload payload world).
    match goal with |- context [Logged ?l :: _] =>
      destruct (handler_tail o w d l) as (R & _) end.
    destruct (sendToDiscord o w d) as [events [e | ]]; exact R.
Qed.

(** X12.  [HandleJenkinsWebhook] calls the destination once at most,
    without retry: not at all when the body does not bind or the
    request cannot be built, else with one POST to the configured URL,
    of content type application/json, whose body is the document of the
    converted payload.  Both variants. *)
Theorem HandleJenkinsWebhook_requests (o : Outside) (w : WebhookHandler) (world : World) :
  (forall bound,
     requests (fst (Nested_HandleJenkinsWebhook o w bound world)) =
     match bound, urlError o (discordURL w) with
     | inr payload, None => [postTo w (Nested.convertToDiscordPayload payload world)]
     | _, _ => []
     end)
  /\ (forall bound,
        requests (fst (Flat_HandleJenkinsWebhook o w bound world)) =
        match bound, urlError o (discordURL w) with
        | inr payload, None => [postTo w (Flat.convertToDiscordPayload payload world)]
        | _, _ => []
        end).
Proof.
  split; intros [err | payload]; try reflexivity.
  - unfold Nested_HandleJenkinsWebhook, bind.
    set (d := Nested.convertToDiscordPayload payload world).
    destruct (sendToDiscord_spec o w d) as (_ & Q & _).
    match goal with |- context [Logged ?l :: _] =>
      destruct (handler_tail o w d l) as (_ & R & _) end.
    rewrite <- Q. destruct (sendToDiscord o w d) as [events [e | ]]; exact R.
  - unfold Flat_HandleJenkinsWebhook, bind.
    set (d := Flat.convertToDiscordPayload payload world).
    destruct (sendToDiscord_spec o w d) as (_ & Q & _).
    match goal with |- context [Logged ?l :: _] =>
      destruct (handler_tail o w d l) as (_ & R & _) end.
    rewrite <- Q. destruct (sendToDiscord o w d) as [events [e | ]]; exact R.
Qed.

End Delivery.
